(** * Sentiment_NLP: the document registry of [SentimentNLP]

    A shallow embedding of [src/Sentiment_NLP.py].  Python dictionaries keep
    their insertion order, and the top-k filter depends on it, so a dictionary
    is an association list in insertion order.  The registry [self.data] is a
    [defaultdict(dict)]: statistic name -> label -> value.  Every method takes
    the registry and returns the registry it leaves behind together with its
    outcome (a value or a raised exception). *)

From Stdlib Require Import List String Ascii ZArith QArith Bool Lia.
From Stdlib Require Import Permutation Sorted.
Import ListNotations.

Open Scope string_scope.
Open Scope list_scope.

(* ================================================================= *)
(** ** Exceptions and outcomes *)

Inductive exn : Type :=
| ValidationError
| FileNotFoundError
| PermissionError
| TypeError
| AttributeError
| KeyError
| ValueError
| IndexError.

Inductive result (A : Type) : Type :=
| Ok (a : A)
| Raise (e : exn).

Arguments Ok {A} a.
Arguments Raise {A} e.

Definition bind {A B : Type} (r : result A) (f : A -> result B) : result B :=
  match r with
  | Ok a => f a
  | Raise e => Raise e
  end.

Notation "x <- r ;; k" := (bind r (fun x => k))
  (at level 61, r at next level, right associativity).

(* ================================================================= *)
(** ** Python dictionaries: association lists in insertion order *)

(** Keys of a dictionary are compared with [==]. *)
Class Hashable (K : Type) : Type := {
  key_eqb : K -> K -> bool;
  key_eqb_spec : forall x y : K, reflect (x = y) (key_eqb x y)
}.

#[export] Instance string_hashable : Hashable string :=
  {| key_eqb := String.eqb; key_eqb_spec := String.eqb_spec |}.

Definition option_eqb (x y : option string) : bool :=
  match x, y with
  | Some a, Some b => String.eqb a b
  | None, None => true
  | _, _ => false
  end.

Lemma option_eqb_spec (x y : option string) : reflect (x = y) (option_eqb x y).
Proof.
  destruct x as [a|], y as [b|]; simpl; try (constructor; congruence).
  destruct (String.eqb_spec a b); constructor; congruence.
Defined.

(** A label is a string, or [None] when neither a label nor a filename was
    given. *)
Definition label : Type := option string.

#[export] Instance label_hashable : Hashable label :=
  {| key_eqb := option_eqb; key_eqb_spec := option_eqb_spec |}.

Definition dict (K V : Type) : Type := list (K * V).

Module PyDict.
Section Ops.
Context {K V : Type} {HK : Hashable K}.

(** [d.get(k)]: [None] when [k] is not a key. *)
Fixpoint get (k : K) (d : dict K V) : option V :=
  match d with
  | [] => None
  | (k', v) :: d' => if key_eqb k k' then Some v else get k d'
  end.

(** [d[k] = v]: an existing key keeps its position, a new key goes last. *)
Fixpoint set (k : K) (v : V) (d : dict K V) : dict K V :=
  match d with
  | [] => [(k, v)]
  | (k', v') :: d' =>
      if key_eqb k k' then (k, v) :: d' else (k', v') :: set k v d'
  end.

Definition keys (d : dict K V) : list K := map fst d.
Definition values (d : dict K V) : list V := map snd d.
Definition items (d : dict K V) : list (K * V) := d.

(** [dict(pairs)] *)
Definition of_items (l : list (K * V)) : dict K V :=
  fold_left (fun d kv => set (fst kv) (snd kv) d) l [].
End Ops.
End PyDict.

Import PyDict.

(* ================================================================= *)
(** ** Strings

    A Python [str] is modelled by [string]; a character is its code point,
    below 256. *)

Module Str.

Definition between (lo hi : nat) (c : ascii) : bool :=
  let n := nat_of_ascii c in (lo <=? n)%nat && (n <=? hi)%nat.

(** [c.isspace()]: tab, newline, vertical tab, form feed, carriage return,
    the separators 0x1c..0x1f, space, 0x85 and 0xa0. *)
Definition isspace (c : ascii) : bool :=
  between 9 13 c || between 28 32 c || between 133 133 c || between 160 160 c.

(** the character class [a-zA-Z] *)
Definition is_alpha (c : ascii) : bool :=
  between 65 90 c || between 97 122 c.

Definition is_lower_alpha (c : ascii) : bool := between 97 122 c.

(** characters that [str.lower] changes: [A-Z] and the capital letters of
    Latin-1 *)
Definition is_upper (c : ascii) : bool :=
  between 65 90 c || between 192 214 c || between 216 222 c.

Definition lower_char (c : ascii) : ascii :=
  if is_upper c then ascii_of_nat (nat_of_ascii c + 32) else c.

Fixpoint map_chars (f : ascii -> ascii) (s : string) : string :=
  match s with
  | EmptyString => EmptyString
  | String c s' => String (f c) (map_chars f s')
  end.

(** [s.lower()], for characters below 256; [preprocess] calls it on the
    letters [a-zA-Z] and spaces that [re.sub] leaves. *)
Definition lower (s : string) : string := map_chars lower_char s.

(** [re.sub('[^a-zA-Z]', ' ', s)] *)
Definition sub_non_alpha (s : string) : string :=
  map_chars (fun c => if is_alpha c then c else " "%char) s.

Definition starts_word (s : string) : bool :=
  match s with
  | EmptyString => false
  | String c _ => negb (isspace c)
  end.

(** [s.split()]: the maximal runs of characters that are not whitespace. *)
Fixpoint split (s : string) : list string :=
  match s with
  | EmptyString => []
  | String c s' =>
      if isspace c then split s'
      else if starts_word s' then
        match split s' with
        | w :: ws => String c w :: ws
        | [] => [String c EmptyString]
        end
      else String c EmptyString :: split s'
  end.

(** [sep.join(l)] *)
Definition join (sep : string) (l : list string) : string :=
  String.concat sep l.

(** [w in l] for a list of strings *)
Definition mem (w : string) (l : list string) : bool :=
  existsb (String.eqb w) l.

Fixpoint forallb_chars (p : ascii -> bool) (s : string) : bool :=
  match s with
  | EmptyString => true
  | String c s' => p c && forallb_chars p s'
  end.

End Str.

(* ================================================================= *)
(** ** Values and the registry *)

(** What a parser stores under a statistic: a word-count mapping, a mapping
    of polarity scores (finite floats, as the rationals they denote), or a
    text. *)
Inductive value : Type :=
| VCounts (counts : dict string Z)
| VScores (scores : dict string Q)
| VText (text : string).

(** [self.data]: statistic name -> label -> value *)
Definition registry : Type := dict string (dict label value).

(** [SentimentNLP.__init__] *)
Definition init : registry := [].

(** The [parser] argument of [load_text] when it is not [None]. *)
Inductive parser_arg : Type :=
| Callable (f : option string -> result (dict string value))
| NotCallable.

(** [exception_class.NLPError]: one argument check per method; the module is
    not part of the sources, so the checks are parameters. *)
Record NLPError : Type := {
  check_default_parser : option string -> result unit;
  check_load_text :
    option string -> option string -> option parser_arg -> result unit;
  check_get_wordcount : option (list string) -> Z -> result unit
}.

(** The libraries and the file system the class calls into. *)
Record Env : Type := {
  (** [stopwords.words('english')] *)
  stopwords : list string;
  (** [WordNetLemmatizer().lemmatize] *)
  lemmatize : string -> string;
  (** [SentimentIntensityAnalyzer().polarity_scores] *)
  polarity_scores : string -> dict string Q;
  (** [open(filename).read()] *)
  open_read : string -> result string;
  (** [WordCloud(...).generate(text)]: whether a cloud can be made of the
      value *)
  wordcloud_generate : value -> result unit;
  (** [self.Exception] *)
  exception : NLPError
}.

(** [self.data[k]] of a [defaultdict(dict)]: a missing key is created with
    an empty dictionary. *)
Definition getitem_default (k : string) (data : registry)
  : registry * dict label value :=
  match get k data with
  | Some d => (data, d)
  | None => (set k [] data, [])
  end.

(** [self.data[stat][lbl]], when both keys exist *)
Definition stat (data : registry) (s : string) (lbl : label) : option value :=
  match get s data with
  | Some d => get lbl d
  | None => None
  end.

(* ================================================================= *)
(** ** The methods of [SentimentNLP] *)

(** [preprocess] *)
Definition preprocess (E : Env) (content : string) : string :=
  let text_data := Str.sub_non_alpha content in
  let text_data := Str.lower text_data in
  let text_data := Str.split text_data in
  let text_data :=
    map (lemmatize E)
        (filter (fun word => negb (Str.mem word (stopwords E))) text_data) in
  Str.join " " text_data.

(** one iteration of the loop of [count] *)
Definition count_word (counts : dict string Z) (word : string) : dict string Z :=
  match get word counts with
  | Some n => set word (n + 1)%Z counts
  | None => set word 1%Z counts
  end.

(** [count] *)
Definition count (content : string) : dict string Z :=
  let words := Str.split content in
  fold_left count_word words [].

(** [_default_parser] *)
Definition _default_parser (E : Env) (filename : option string)
  : result (dict string value) :=
  _ <- check_default_parser (exception E) filename ;;
  content <- match filename with
             | Some f => open_read E f
             | None => Raise TypeError
             end ;;
  let content := preprocess E content in
  let wordcounts := count content in
  Ok [ ("wordcount", VCounts wordcounts);
       ("sentiment", VScores (polarity_scores E content));
       ("raw_text", VText content) ]%string.

(** [self.data[k][label] = v] *)
Definition save_item (lbl : label) (data : registry) (kv : string * value)
  : registry :=
  let (data, inner) := getitem_default (fst kv) data in
  set (fst kv) (set lbl (snd kv) inner) data.

(** [_save_results] *)
Definition _save_results (data : registry) (lbl : label)
  (results : dict string value) : registry :=
  fold_left (save_item lbl) (items results) data.

(** the [if parser is None: ... else: ...] of [load_text] *)
Definition parse (E : Env) (filename : option string)
  (parser : option parser_arg) : result (dict string value) :=
  match parser with
  | None => _default_parser E filename
  | Some (Callable f) => f filename
  | Some NotCallable => Raise TypeError
  end.

(** the label a registration is stored under *)
Definition effective_label (filename : option string) (lbl : option string)
  : label :=
  match lbl with
  | Some l => Some l
  | None => filename
  end.

(** [load_text] *)
Definition load_text (E : Env) (data : registry) (filename : option string)
  (lbl : option string) (parser : option parser_arg) : registry * result unit :=
  match check_load_text (exception E) filename lbl parser with
  | Raise e => (data, Raise e)
  | Ok _ =>
      match parse E filename parser with
      | Raise e => (data, Raise e)
      | Ok results =>
          (_save_results data (effective_label filename lbl) results, Ok tt)
      end
  end.

(** [l[:k]] *)
Definition slice_to {A : Type} (k : Z) (l : list A) : list A :=
  if (0 <=? k)%Z then firstn (Z.to_nat k) l
  else firstn (List.length l - Z.to_nat (- k)) l.

Section Sorted.
Context {A : Type} (ltb : A -> A -> bool).

(** [sorted(l, key=lambda x: x[1], reverse=True)]: decreasing values, and
    the sort is stable, so equal values keep the order they had in [l]. *)
Fixpoint insert_desc (x : string * A) (l : list (string * A))
  : list (string * A) :=
  match l with
  | [] => [x]
  | y :: l' =>
      if ltb (snd x) (snd y) then y :: insert_desc x l' else x :: y :: l'
  end.

Fixpoint sorted_desc (l : list (string * A)) : list (string * A) :=
  match l with
  | [] => []
  | x :: l' => insert_desc x (sorted_desc l')
  end.

(** [dict(sorted(d.items(), key=lambda x: x[1], reverse=True)[:k])] *)
Definition top_k (k : Z) (d : dict string A) : dict string A :=
  of_items (slice_to k (sorted_desc (items d))).
End Sorted.

(** the inner loop of the [else] branch of [get_wordcount] *)
Definition select_words {A : Type} (word_list : list string) (d : dict string A)
  : dict string A :=
  fold_left
    (fun temp_dict kv =>
       if Str.mem (fst kv) word_list then set (fst kv) (snd kv) temp_dict
       else temp_dict)
    (items d) [].

Definition Qltb (x y : Q) : bool := negb (Qle_bool y x).

(** [wordcount_dict[filename].items()], then the new dictionary for it *)
Definition filter_value (fz : dict string Z -> dict string Z)
  (fq : dict string Q -> dict string Q) (v : value) : result value :=
  match v with
  | VCounts d => Ok (VCounts (fz d))
  | VScores d => Ok (VScores (fq d))
  | VText _ => Raise AttributeError
  end.

(** [for filename in wordcount_dict: wordcount_dict[filename] = ...];
    [wordcount_dict] is [self.data["wordcount"]] itself, so the entries
    replaced before an exception stay replaced. *)
Fixpoint filter_loop (body : value -> result value) (filenames : list label)
  (wordcount_dict : dict label value) : dict label value * result unit :=
  match filenames with
  | [] => (wordcount_dict, Ok tt)
  | filename :: rest =>
      match get filename wordcount_dict with
      | None => (wordcount_dict, Raise KeyError)
      | Some v =>
          match body v with
          | Raise e => (wordcount_dict, Raise e)
          | Ok temp_dict =>
              filter_loop body rest (set filename temp_dict wordcount_dict)
          end
      end
  end.

(** the body of the loop, by the branch of [if word_list == None] *)
Definition wordcount_body (word_list : option (list string)) (k : Z)
  : value -> result value :=
  match word_list with
  | None => filter_value (top_k Z.ltb k) (top_k Qltb k)
  | Some word_list =>
      filter_value (select_words word_list) (select_words word_list)
  end.

(** [get_wordcount] *)
Definition get_wordcount (E : Env) (data : registry)
  (word_list : option (list string)) (k : Z) : registry * result unit :=
  match check_get_wordcount (exception E) word_list k with
  | Raise e => (data, Raise e)
  | Ok _ =>
      let (data, wordcount_dict) := getitem_default "wordcount" data in
      let (wordcount_dict, r) :=
        filter_loop (wordcount_body word_list k)
                    (keys wordcount_dict) wordcount_dict in
      (set "wordcount"%string wordcount_dict data, r)
  end.

(** the rows [wordcount_sankey] adds for one file: one row per occurrence,
    [range(value)] being empty for a count below one *)
Definition sankey_rows_of (filename : label) (v : value)
  : result (list (label * string)) :=
  match v with
  | VCounts d =>
      Ok (flat_map
            (fun kv => repeat (filename, fst kv) (Z.to_nat (snd kv)))
            (items d))
  | VScores [] => Ok []
  | VScores (_ :: _) => Raise TypeError
  | VText _ => Raise AttributeError
  end.

Fixpoint sankey_rows (wordcount_dict : dict label value)
  (filenames : list label) : result (list (label * string)) :=
  match filenames with
  | [] => Ok []
  | filename :: rest =>
      match get filename wordcount_dict with
      | None => Raise KeyError
      | Some v =>
          rows <- sankey_rows_of filename v ;;
          more <- sankey_rows wordcount_dict rest ;;
          Ok (rows ++ more)
      end
  end.

(** [wordcount_sankey]; the outcome is the data frame handed to
    [make_sankey], as its rows (text, word). *)
Definition wordcount_sankey (E : Env) (data : registry)
  (word_list : option (list string)) (k : Z)
  : registry * result (list (label * string)) :=
  let (data, r) := get_wordcount E data word_list k in
  match r with
  | Raise e => (data, Raise e)
  | Ok _ =>
      let (data, wordcount_dict) := getitem_default "wordcount" data in
      (data, sankey_rows wordcount_dict (keys wordcount_dict))
  end.

(** the first loop of [second_viz]: [(filename_lst, text_lst)], the titles
    and the texts of the word clouds *)
Definition second_viz_lists (data : registry)
  : registry * (list label * list value) :=
  let (data, text_content) := getitem_default "raw_text" data in
  (data, (map fst (items text_content), map snd (items text_content))).

(** What [plt.subplots(1, ncols)] returns as [axs]: one [Axes] object for a
    single column, an array of them for more. *)
Inductive axes : Type :=
| SingleAxes
| AxesArray (ncols : nat).

(** [plt.subplots(1, ncols, figsize=(15, 5))]: no column is a [ValueError]. *)
Definition subplots_row (ncols : nat) : result axes :=
  match ncols with
  | O => Raise ValueError
  | S O => Ok SingleAxes
  | _ => Ok (AxesArray ncols)
  end.

(** [axs[i]]: an [Axes] object cannot be subscripted. *)
Definition axes_getitem (axs : axes) (i : nat) : result unit :=
  match axs with
  | SingleAxes => Raise TypeError
  | AxesArray ncols => if (i <? ncols)%nat then Ok tt else Raise IndexError
  end.

(** the second loop of [second_viz], from index [i] on: the panels drawn,
    as (title, text) *)
Fixpoint draw_panels (E : Env) (axs : axes) (i : nat)
  (filename_lst : list label) (text_lst : list value)
  : result (list (label * value)) :=
  match filename_lst, text_lst with
  | title :: titles, text :: texts =>
      _ <- axes_getitem axs i ;;
      _ <- wordcloud_generate E text ;;
      panels <- draw_panels E axs (S i) titles texts ;;
      Ok ((title, text) :: panels)
  | _, _ => Ok []
  end.

(** [second_viz]; the outcome is the panels drawn, one (title, text) per
    word cloud. *)
Definition second_viz (E : Env) (data : registry)
  : registry * result (list (label * value)) :=
  let (data, lists) := second_viz_lists data in
  let (filename_lst, text_lst) := lists in
  (data,
   axs <- subplots_row (List.length text_lst) ;;
   draw_panels E axs O filename_lst text_lst).

(** [self.data["sentiment"][filename][name]] *)
Definition score_of (v : value) (name : string) : result Q :=
  match v with
  | VScores d =>
      match get name d with
      | Some q => Ok q
      | None => Raise KeyError
      end
  | VCounts d =>
      match get name d with
      | Some z => Ok (inject_Z z)
      | None => Raise KeyError
      end
  | VText _ => Raise TypeError
  end.

Fixpoint sentiment_bars (sentiment : dict label value)
  (filenames : list label) : result (list Q * list Q) :=
  match filenames with
  | [] => Ok ([], [])
  | filename :: rest =>
      match get filename sentiment with
      | None => Raise KeyError
      | Some v =>
          pos <- score_of v "pos" ;;
          neg <- score_of v "neg" ;;
          bars <- sentiment_bars sentiment rest ;;
          Ok (pos :: fst bars, neg :: snd bars)
      end
  end.

(** [third_viz]; the outcome is the tick labels and the heights of the
    positive and the negative bars. *)
Definition third_viz (data : registry)
  : registry * result (list label * (list Q * list Q)) :=
  let (data, sentiment) := getitem_default "sentiment" data in
  let filenames := keys sentiment in
  (data, bars <- sentiment_bars sentiment filenames ;; Ok (filenames, bars)).

(* ================================================================= *)
(** ** The argument checks, from the specification *)

(** Modelled from the spec: [exception_class.NLPError.load_text] is not part
    of the sources.  Registration fails with [ValidationError] if the
    filename is empty or absent, or if a parser is provided but is not
    invocable; a label that is already registered is not an error. *)
Definition spec_check_load_text (filename : option string)
  (lbl : option string) (parser : option parser_arg) : result unit :=
  match filename with
  | None => Raise ValidationError
  | Some f =>
      if String.eqb f "" then Raise ValidationError
      else match parser with
           | Some NotCallable => Raise ValidationError
           | _ => Ok tt
           end
  end.

(** Modelled from the spec: the checks of [exception_class.NLPError]; the
    specification names a validation failure for registration only, so the
    other two checks accept their arguments. *)
Definition spec_NLPError : NLPError :=
  {| check_default_parser := fun _ => Ok tt;
     check_load_text := spec_check_load_text;
     check_get_wordcount := fun _ _ => Ok tt |}.

(** An environment for running the methods: two files, a few stop-words, a
    lemmatizer that knows no inflected form, and a neutral scorer. *)
Definition example_env : Env :=
  {| stopwords := ["the"; "on"; "in"; "a"; "of"]%string;
     lemmatize := fun w => w;
     polarity_scores := fun _ =>
       [("neg", 0); ("neu", 1); ("pos", 0); ("compound", 0)]%string%Q;
     open_read := fun f =>
       if String.eqb f "a.txt" then Ok "The cat sat on the mat"%string
       else if String.eqb f "b.txt" then Ok "The dog ran in the park"%string
       else if String.eqb f "c.txt" then
         Ok "Red, green, red; blue green red: yellow pink grey."%string
       else Raise FileNotFoundError;
     wordcloud_generate := fun v =>
       match v with
       | VText t => if String.eqb t "" then Raise ValueError else Ok tt
       | _ => Raise TypeError
       end;
     exception := spec_NLPError |}.

(** [sum(counts.values())] *)
Definition sum_values (d : dict string Z) : Z :=
  fold_right Z.add 0%Z (values d).

(** the number of tokens equal to [w] *)
Definition occurrences (w : string) (words : list string) : nat :=
  count_occ string_dec words w.

(** ** The tokens of a text, read off the text itself *)

Definition starts_alpha (s : string) : bool :=
  match s with
  | EmptyString => false
  | String c _ => Str.is_alpha c
  end.

(** The maximal runs of English letters of [t], in the order they occur,
    each in lower case. *)
Fixpoint alpha_words (t : string) : list string :=
  match t with
  | EmptyString => []
  | String c t' =>
      if Str.is_alpha c then
        if starts_alpha t' then
          match alpha_words t' with
          | w :: ws => String (Str.lower_char c) w :: ws
          | [] => [String (Str.lower_char c) EmptyString]
          end
        else String (Str.lower_char c) EmptyString :: alpha_words t'
      else alpha_words t'
  end.

(** a token: one or more of the letters [a-z] *)
Definition lower_word (w : string) : bool :=
  negb (String.eqb w "") && Str.forallb_chars Str.is_lower_alpha w.

(** the characters of a cleaned text *)
Definition lower_or_space (c : ascii) : bool :=
  Str.is_lower_alpha c || Ascii.eqb c " ".

(** ** Well-formed registries and the top-k entries of a mapping *)

(** A Python dictionary holds a key once. *)
Definition wf_value (v : value) : Prop :=
  match v with
  | VCounts d => NoDup (keys d)
  | VScores d => NoDup (keys d)
  | VText _ => True
  end.

Definition wf_results (results : dict string value) : Prop :=
  NoDup (keys results) /\ forall s v, In (s, v) results -> wf_value v.

Definition wf_registry (data : registry) : Prop :=
  NoDup (keys data) /\
  forall s inner, In (s, inner) data ->
    NoDup (keys inner) /\ forall lbl v, In (lbl, v) inner -> wf_value v.

(** the mapping stored under one statistic *)
Definition wf_inner (inner : dict label value) : Prop :=
  NoDup (keys inner) /\ forall lbl v, In (lbl, v) inner -> wf_value v.

(** Every value registered under ["wordcount"] is a word-count mapping. *)
Definition counts_shaped (data : registry) : Prop :=
  forall lbl v, stat data "wordcount" lbl = Some v ->
    exists d, v = VCounts d.

(** [x] comes before [y] in [l] *)
Definition precedes {A : Type} (x y : A) (l : list A) : Prop :=
  exists l1 l2 l3, l = l1 ++ x :: l2 ++ y :: l3.

(** [new] holds the [k] largest-count entries of [old], ties broken by the
    insertion order of [old]: it has [k] entries (all of them when [old] has
    fewer), every entry is an entry of [old] with its count, and an entry
    left out has a smaller count than every entry kept, or the same count
    and a later place in [old]. *)
Definition is_top_k (k : Z) (old new : dict string Z) : Prop :=
  List.length new = Nat.min (Z.to_nat k) (List.length old) /\
  NoDup (keys new) /\
  (forall w c, get w new = Some c -> get w old = Some c) /\
  (forall e e', In e new -> In e' old -> ~ In e' new ->
     (snd e' < snd e)%Z \/ (snd e' = snd e /\ precedes e e' old)).

(** the value [get_wordcount] leaves for [v] when its loop body is [body] *)
Definition body_value (body : value -> result value) (v : value) : value :=
  match body v with
  | Ok v' => v'
  | Raise _ => v
  end.

(** [self.data["wordcount"]], empty when nothing is registered *)
Definition wordcount_of (data : registry) : dict label value :=
  snd (getitem_default "wordcount" data).

(** the checks of well-formedness, as boolean functions *)
Fixpoint distinctb {K : Type} {HK : Hashable K} (l : list K) : bool :=
  match l with
  | [] => true
  | x :: l' => negb (existsb (key_eqb x) l') && distinctb l'
  end.

Definition wf_valueb (v : value) : bool :=
  match v with
  | VCounts d => distinctb (keys d)
  | VScores d => distinctb (keys d)
  | VText _ => true
  end.

Definition wf_resultsb (results : dict string value) : bool :=
  distinctb (keys results) && forallb (fun kv => wf_valueb (snd kv)) results.

Definition wf_registryb (data : registry) : bool :=
  distinctb (keys data) &&
  forallb (fun si =>
             distinctb (keys (snd si)) &&
             forallb (fun lv => wf_valueb (snd lv)) (snd si))
          data.

Definition is_counts (v : value) : bool :=
  match v with
  | VCounts _ => true
  | _ => false
  end.

Definition counts_shapedb (data : registry) : bool :=
  forallb is_counts (values (wordcount_of data)).

(** the registry after registering the three example files under their
    names *)
Definition example_registry : registry :=
  let data := fst (load_text example_env init (Some "a.txt") None None) in
  let data := fst (load_text example_env data (Some "b.txt") None None) in
  fst (load_text example_env data (Some "c.txt") None None).

(** two custom parsers: the second returns no ["topic"] *)
Definition first_results : dict string value :=
  [("wordcount", VCounts [("old", 1%Z)]); ("topic", VText "first")].

Definition second_results : dict string value :=
  [("wordcount", VCounts [("new", 2%Z)])].

Definition first_parser : parser_arg := Callable (fun _ => Ok first_results).
Definition second_parser : parser_arg := Callable (fun _ => Ok second_results).

(** the registry after registering ["doc"] with the first parser, and then
    again with the second *)
Definition registered_once : registry :=
  fst (load_text example_env init (Some "one.txt") (Some "doc")
         (Some first_parser)).

Definition registered_twice : registry :=
  fst (load_text example_env registered_once (Some "two.txt") (Some "doc")
         (Some second_parser)).

(** the order of the sorted entries, and the entries with a given count *)
Definition ge_count (a b : string * Z) : Prop := (snd b <= snd a)%Z.

Definition has_count (c : Z) (e : string * Z) : bool := Z.eqb (snd e) c.

(** ** The states of a session *)

(** a parser that returns Python dictionaries *)
Definition wf_parser (parser : option parser_arg) : Prop :=
  match parser with
  | Some (Callable f) => forall filename results,
      f filename = Ok results -> wf_results results
  | _ => True
  end.

(** the scorer returns a Python dictionary *)
Definition wf_env (E : Env) : Prop :=
  forall content, NoDup (keys (polarity_scores E content)).

(** The registries a caller can bring about: a new object, then any
    sequence of calls of the public methods, failed calls included. *)
Inductive reachable (E : Env) : registry -> Prop :=
| reach_init : reachable E init
| reach_load_text data filename lbl parser :
    reachable E data -> wf_parser parser ->
    reachable E (fst (load_text E data filename lbl parser))
| reach_get_wordcount data word_list k :
    reachable E data ->
    reachable E (fst (get_wordcount E data word_list k))
| reach_wordcount_sankey data word_list k :
    reachable E data ->
    reachable E (fst (wordcount_sankey E data word_list k))
| reach_second_viz data :
    reachable E data -> reachable E (fst (second_viz E data))
| reach_third_viz data :
    reachable E data -> reachable E (fst (third_viz data)).

(** the distinct tokens, in the order of their first occurrence *)
Fixpoint first_occurrences (l : list string) : list string :=
  match l with
  | [] => []
  | x :: l' =>
      x :: filter (fun y => negb (String.eqb y x)) (first_occurrences l')
  end.

(** the same labels, each value replaced by [f] of it *)
Definition map_values (f : value -> value) (d : dict label value)
  : dict label value :=
  map (fun lv => (fst lv, f (snd lv))) d.

Definition is_text (v : value) : bool :=
  match v with
  | VText _ => true
  | _ => false
  end.

(** the length of [l[:k]] for a list of length [len] *)
Definition slice_count (k : Z) (len : nat) : nat :=
  if (0 <=? k)%Z then Nat.min (Z.to_nat k) len else len - Z.to_nat (- k).

(** [new] holds the [n] largest-count entries of [old], ties broken by the
    insertion order of [old]. *)
Definition keeps_largest (n : nat) (old new : dict string Z) : Prop :=
  List.length new = Nat.min n (List.length old) /\
  NoDup (keys new) /\
  (forall w c, get w new = Some c -> get w old = Some c) /\
  (forall e e', In e new -> In e' old -> ~ In e' new ->
     (snd e' < snd e)%Z \/ (snd e' = snd e /\ precedes e e' old)).

(** The registries that follow a given one: any sequence of calls of the
    public methods, failed calls included. *)
Inductive evolves (E : Env) (data : registry) : registry -> Prop :=
| evolves_refl : evolves E data data
| evolves_load_text data' filename lbl parser :
    evolves E data data' ->
    evolves E data (fst (load_text E data' filename lbl parser))
| evolves_get_wordcount data' word_list k :
    evolves E data data' ->
    evolves E data (fst (get_wordcount E data' word_list k))
| evolves_wordcount_sankey data' word_list k :
    evolves E data data' ->
    evolves E data (fst (wordcount_sankey E data' word_list k))
| evolves_second_viz data' :
    evolves E data data' -> evolves E data (fst (second_viz E data'))
| evolves_third_viz data' :
    evolves E data data' -> evolves E data (fst (third_viz data')).

(** a parser that stores a text where the word counts belong, and the
    registry after registering ["c.txt"] and then a file with that parser *)
Definition text_parser : parser_arg :=
  Callable (fun _ => Ok [("wordcount", VText "not a mapping")]).

Definition mixed_registry : registry :=
  let data := fst (load_text example_env init (Some "c.txt") None None) in
  fst (load_text example_env data (Some "d.txt") None (Some text_parser)).

(** how often the row (text [lbl], word [w]) occurs in a data frame *)
Definition row_count (lbl : label) (w : string) (rows : list (label * string))
  : nat :=
  List.length
    (filter (fun r => key_eqb (fst r) lbl && String.eqb (snd r) w) rows).

(** the number of rows a word of a mapping gets: its count, none when the
    count is below one or the word is no key *)
Definition count_for (w : string) (d : dict string Z) : nat :=
  match get w d with
  | Some c => Z.to_nat c
  | None => 0
  end.

(** a sentiment value from which [third_viz] can read both bars *)
Definition has_bars (v : value) : Prop :=
  exists p n, score_of v "pos" = Ok p /\ score_of v "neg" = Ok n.

(** [self.data[s]], empty when nothing is registered under [s] *)
Definition mapping_of (s : string) (data : registry) : dict label value :=
  snd (getitem_default s data).

(** a text with each capital letter [A-Z] replaced by its small letter *)
Definition lower_ascii_char (c : ascii) : ascii :=
  if Str.between 65 90 c then ascii_of_nat (nat_of_ascii c + 32) else c.

Definition lower_ascii (s : string) : string :=
  Str.map_chars lower_ascii_char s.

(* ================================================================= *)
(** * Properties *)

(** ** Dictionaries *)

Section DictFacts.
Context {K V : Type} {HK : Hashable K}.
Implicit Types (k : K) (v : V) (d : dict K V).

Lemma key_eqb_refl k : key_eqb k k = true.
Proof. destruct (key_eqb_spec k k); congruence. Qed.

Lemma key_eqb_neq k k' : k <> k' -> key_eqb k k' = false.
Proof. intros Hne. destruct (key_eqb_spec k k'); congruence. Qed.

Lemma get_set_eq k v d : get k (set k v d) = Some v.
Proof.
  induction d as [|[k' v'] d IH]; simpl.
  - now rewrite key_eqb_refl.
  - destruct (key_eqb_spec k k') as [->|Hne]; simpl.
    + now rewrite key_eqb_refl.
    + now rewrite (key_eqb_neq _ _ Hne).
Qed.

Lemma get_set_ne k k' v d : k <> k' -> get k' (set k v d) = get k' d.
Proof.
  intros Hne. induction d as [|[k0 v0] d IH]; simpl.
  - rewrite key_eqb_neq; congruence.
  - destruct (key_eqb_spec k k0) as [->|Hne0]; simpl.
    + rewrite key_eqb_neq; congruence.
    + now rewrite IH.
Qed.

Lemma get_None_iff k d : get k d = None <-> ~ In k (keys d).
Proof.
  induction d as [|[k' v'] d IH]; simpl.
  - tauto.
  - destruct (key_eqb_spec k k') as [->|Hne].
    + split; [discriminate | tauto].
    + rewrite IH. split; [intros H [E|I]; congruence | tauto].
Qed.

Lemma get_Some_In k v d : get k d = Some v -> In (k, v) d.
Proof.
  induction d as [|[k' v'] d IH]; simpl; [discriminate|].
  destruct (key_eqb_spec k k') as [->|Hne]; intros H.
  - left. congruence.
  - right. auto.
Qed.

Lemma In_get_Some k v d : NoDup (keys d) -> In (k, v) d -> get k d = Some v.
Proof.
  induction d as [|[k' v'] d IH]; simpl; [tauto|].
  intros Hnd [E|I]; inversion Hnd as [|x l Hnotin Hnd']; subst.
  - inversion E; subst. now rewrite key_eqb_refl.
  - destruct (key_eqb_spec k k') as [->|Hne]; auto.
    exfalso. apply Hnotin. change (In (fst (k', v)) (map fst d)).
    now apply in_map.
Qed.

Lemma set_absent k v d : get k d = None -> set k v d = d ++ [(k, v)].
Proof.
  induction d as [|[k' v'] d IH]; simpl; [reflexivity|].
  destruct (key_eqb k k'); [discriminate|]. intros H. now rewrite IH.
Qed.

Lemma keys_set_present k v d : get k d <> None -> keys (set k v d) = keys d.
Proof.
  unfold keys. induction d as [|[k' v'] d IH]; simpl; [congruence|].
  destruct (key_eqb_spec k k') as [->|Hne]; simpl; intros H.
  - reflexivity.
  - f_equal. now apply IH.
Qed.

Lemma keys_set k v d :
  keys (set k v d) =
  match get k d with Some _ => keys d | None => keys d ++ [k] end.
Proof.
  destruct (get k d) eqn:E.
  - apply keys_set_present. congruence.
  - rewrite (set_absent _ _ _ E). unfold keys. now rewrite map_app.
Qed.

Lemma NoDup_keys_set k v d : NoDup (keys d) -> NoDup (keys (set k v d)).
Proof.
  intros Hnd. rewrite keys_set. destruct (get k d) eqn:E; [assumption|].
  apply get_None_iff in E.
  apply NoDup_rev in Hnd. rewrite <- (rev_involutive (keys d ++ [k])).
  apply NoDup_rev. rewrite rev_app_distr. simpl. constructor; [|assumption].
  now rewrite <- in_rev.
Qed.

(** [dict(pairs)] of pairs with distinct keys is the pairs themselves. *)
Lemma fold_set_distinct (l acc : list (K * V)) :
  NoDup (keys (acc ++ l)) ->
  fold_left (fun d kv => set (fst kv) (snd kv) d) l acc = acc ++ l.
Proof.
  revert acc. induction l as [|[k v] l IH]; intros acc Hnd; simpl.
  - now rewrite app_nil_r.
  - assert (Hnone : get k acc = None).
    { apply get_None_iff. unfold keys in *. rewrite map_app in Hnd. simpl in Hnd.
      apply NoDup_remove_2 in Hnd. intros Hin. apply Hnd.
      apply in_or_app. now left. }
    rewrite (set_absent _ _ _ Hnone). rewrite IH.
    + now rewrite <- app_assoc.
    + now rewrite <- app_assoc.
Qed.

Lemma of_items_distinct (l : list (K * V)) : NoDup (keys l) -> of_items l = l.
Proof. intros Hnd. unfold of_items. now rewrite fold_set_distinct. Qed.

End DictFacts.

(** ** Word counts *)

Lemma sum_values_set (w : string) (n : Z) (d : dict string Z) :
  sum_values (set w n d) =
  (sum_values d + n - match get w d with Some m => m | None => 0 end)%Z.
Proof.
  unfold sum_values, values.
  induction d as [|[w' m] d IH]; simpl.
  - lia.
  - destruct (String.eqb w w'); simpl; [lia|]. rewrite IH. lia.
Qed.

Lemma count_word_sum (d : dict string Z) (w : string) :
  sum_values (count_word d w) = (sum_values d + 1)%Z.
Proof.
  unfold count_word. destruct (get w d) eqn:E; rewrite sum_values_set, E; lia.
Qed.

Lemma count_loop_sum (words : list string) (d : dict string Z) :
  sum_values (fold_left count_word words d) =
  (sum_values d + Z.of_nat (List.length words))%Z.
Proof.
  revert d. induction words as [|w ws IH]; intros d.
  - simpl. lia.
  - cbn [fold_left List.length]. rewrite IH, count_word_sum. lia.
Qed.

Lemma count_word_get_same (d : dict string Z) (w : string) :
  get w (count_word d w) =
  Some (match get w d with Some n => n + 1 | None => 1 end)%Z.
Proof. unfold count_word. destruct (get w d); apply get_set_eq. Qed.

Lemma count_word_get_other (d : dict string Z) (w w' : string) :
  w' <> w -> get w (count_word d w') = get w d.
Proof.
  intros Hne. unfold count_word. destruct (get w' d); now apply get_set_ne.
Qed.

Lemma count_loop_get (w : string) (words : list string) (d : dict string Z) :
  get w (fold_left count_word words d) =
  match get w d with
  | Some n => Some (n + Z.of_nat (occurrences w words))%Z
  | None =>
      if Nat.eqb (occurrences w words) 0 then None
      else Some (Z.of_nat (occurrences w words))
  end.
Proof.
  unfold occurrences.
  revert d. induction words as [|w' ws IH]; intros d.
  - simpl. destruct (get w d); [f_equal; lia | reflexivity].
  - cbn [fold_left count_occ]. rewrite IH.
    destruct (string_dec w' w) as [->|Hne].
    + rewrite count_word_get_same.
      destruct (get w d); cbn [Nat.eqb]; f_equal; lia.
    + now rewrite (count_word_get_other d _ _ Hne).
Qed.

Lemma count_word_keys (d : dict string Z) (w : string) :
  NoDup (keys d) -> NoDup (keys (count_word d w)).
Proof. intros H. unfold count_word. destruct (get w d); now apply NoDup_keys_set. Qed.

Lemma count_keys_distinct (c : string) : NoDup (keys (count c)).
Proof.
  unfold count.
  assert (H : forall ws d, NoDup (keys d) ->
                           NoDup (keys (fold_left count_word ws d))).
  { induction ws as [|w ws IH]; intros d Hd; simpl; [assumption|].
    apply IH. now apply count_word_keys. }
  apply H. constructor.
Qed.

(** C5.  For every text [c], the values of [count c] add up to the number
    of tokens of [c.split()], and the value stored for a word is the number
    of tokens equal to it (a word that does not occur is not a key). *)
Theorem count_tallies_tokens (c : string) :
  sum_values (count c) = Z.of_nat (List.length (Str.split c)) /\
  forall w : string,
    get w (count c) =
    if Nat.eqb (occurrences w (Str.split c)) 0 then None
    else Some (Z.of_nat (occurrences w (Str.split c))).
Proof.
  unfold count. split.
  - now rewrite count_loop_sum.
  - intros w. now rewrite count_loop_get.
Qed.

(** ** Preprocessing *)

Ltac all_chars c :=
  destruct c as [[] [] [] [] [] [] [] []]; vm_compute; try reflexivity;
  try discriminate; auto.

Lemma alpha_lower_char (c : ascii) :
  Str.is_alpha c = true ->
  Str.is_lower_alpha (Str.lower_char c) = true /\
  Str.isspace (Str.lower_char c) = false /\
  (if Str.is_alpha (Str.lower_char c) then Str.lower_char c else " "%char)
  = Str.lower_char c.
Proof. all_chars c. Qed.

Lemma lower_alpha_not_space (c : ascii) :
  Str.is_lower_alpha c = true -> Str.isspace c = false.
Proof. all_chars c. Qed.

Lemma starts_word_clean (t : string) :
  Str.starts_word (Str.lower (Str.sub_non_alpha t)) = starts_alpha t.
Proof.
  destruct t as [|c t]; [reflexivity|]. simpl.
  destruct (Str.is_alpha c) eqn:E.
  - destruct (alpha_lower_char c E) as (_ & -> & _). reflexivity.
  - reflexivity.
Qed.

(** Substituting, lowering and splitting yields the runs of letters. *)
Lemma split_clean_alpha_words (t : string) :
  Str.split (Str.lower (Str.sub_non_alpha t)) = alpha_words t.
Proof.
  induction t as [|c t IH]; [reflexivity|].
  cbn [Str.sub_non_alpha Str.lower Str.map_chars Str.split alpha_words].
  fold (Str.sub_non_alpha t). fold (Str.lower (Str.sub_non_alpha t)).
  rewrite starts_word_clean, IH.
  destruct (Str.is_alpha c) eqn:E.
  - destruct (alpha_lower_char c E) as (_ & -> & _). reflexivity.
  - reflexivity.
Qed.

Lemma alpha_words_lower (t : string) :
  Forall (fun w => lower_word w = true) (alpha_words t).
Proof.
  induction t as [|c t IH]; simpl; [constructor|].
  destruct (Str.is_alpha c) eqn:E; [|assumption].
  destruct (alpha_lower_char c E) as (Hl & _ & _).
  destruct (starts_alpha t).
  - destruct (alpha_words t) as [|w ws].
    + constructor; [|constructor]. unfold lower_word. simpl. now rewrite Hl.
    + inversion IH as [|? ? Hw Hws]; subst. constructor; [|assumption].
      unfold lower_word in *. simpl.
      apply andb_true_iff in Hw. destruct Hw as [_ Hw]. now rewrite Hl, Hw.
  - constructor; [|assumption]. unfold lower_word. simpl. now rewrite Hl.
Qed.

Lemma forallb_chars_append (p : ascii -> bool) (s1 s2 : string) :
  Str.forallb_chars p (s1 ++ s2) =
  Str.forallb_chars p s1 && Str.forallb_chars p s2.
Proof.
  induction s1 as [|c s1 IH]; simpl; [reflexivity|].
  now rewrite IH, andb_assoc.
Qed.

Lemma forallb_chars_impl (p q : ascii -> bool) (s : string) :
  (forall c, p c = true -> q c = true) ->
  Str.forallb_chars p s = true -> Str.forallb_chars q s = true.
Proof.
  intros Hpq. induction s as [|c s IH]; simpl; [reflexivity|].
  rewrite !andb_true_iff. intros [Hc Hs]. auto.
Qed.

(** A token followed by a space is split off as it is. *)
Lemma split_token_space (w rest : string) :
  lower_word w = true ->
  Str.split (w ++ String " " rest) = w :: Str.split rest.
Proof.
  unfold lower_word. induction w as [|c w IH]; [discriminate|].
  simpl. rewrite andb_true_iff. intros [Hc Hw].
  rewrite (lower_alpha_not_space c Hc).
  destruct w as [|c' w].
  - reflexivity.
  - simpl in Hw. apply andb_true_iff in Hw. destruct Hw as [Hc' Hw].
    cbn [append Str.starts_word]. rewrite (lower_alpha_not_space c' Hc').
    cbn [negb]. change (String c' (w ++ String " " rest))
      with (String c' w ++ String " " rest)%string.
    rewrite IH; [reflexivity|]. simpl. now rewrite Hc', Hw.
Qed.

Lemma split_token (w : string) : lower_word w = true -> Str.split w = [w].
Proof.
  unfold lower_word. induction w as [|c w IH]; [discriminate|].
  simpl. rewrite andb_true_iff. intros [Hc Hw].
  rewrite (lower_alpha_not_space c Hc).
  destruct w as [|c' w].
  - reflexivity.
  - simpl in Hw. apply andb_true_iff in Hw. destruct Hw as [Hc' Hw].
    cbn [Str.starts_word]. rewrite (lower_alpha_not_space c' Hc').
    cbn [negb]. rewrite IH; [reflexivity|]. simpl. now rewrite Hc', Hw.
Qed.

(** Joining tokens with single spaces and splitting again is the identity. *)
Lemma split_join_tokens (toks : list string) :
  Forall (fun w => lower_word w = true) toks ->
  Str.split (Str.join " " toks) = toks.
Proof.
  unfold Str.join. induction 1 as [|w ws Hw Hws IH]; [reflexivity|].
  destruct ws as [|w' ws].
  - simpl. now apply split_token.
  - change (String.concat " " (w :: w' :: ws))
      with (w ++ String " " (String.concat " " (w' :: ws)))%string.
    rewrite split_token_space by assumption. now rewrite IH.
Qed.

Lemma join_tokens_chars (toks : list string) :
  Forall (fun w => lower_word w = true) toks ->
  Str.forallb_chars lower_or_space (Str.join " " toks) = true.
Proof.
  assert (Hword : forall w, lower_word w = true ->
                            Str.forallb_chars lower_or_space w = true).
  { intros w Hw. apply andb_true_iff in Hw. destruct Hw as [_ Hw].
    revert Hw. apply forallb_chars_impl. intros c Hc.
    unfold lower_or_space. now rewrite Hc. }
  unfold Str.join. induction 1 as [|w ws Hw Hws IH]; [reflexivity|].
  destruct ws as [|w' ws].
  - simpl. now apply Hword.
  - change (String.concat " " (w :: w' :: ws))
      with (w ++ String " " (String.concat " " (w' :: ws)))%string.
    rewrite forallb_chars_append. cbn [Str.forallb_chars].
    rewrite (Hword w Hw), IH. reflexivity.
Qed.

(** C6.  Whenever the lemmatizer maps a token of letters [a-z] to such a
    token, [preprocess t] is the tokens
    [lemmatize w] for the runs of letters [w] of [t] that are no stop-words,
    in the order they occur in [t], in lower case, joined by single spaces:
    every token is one or more letters [a-z], splitting the result gives the
    tokens back, and the result holds letters [a-z] and spaces only. *)
Theorem preprocess_tokens (E : Env) (t : string) :
  (forall w, lower_word w = true -> lower_word (lemmatize E w) = true) ->
  let toks :=
    map (lemmatize E)
        (filter (fun w => negb (Str.mem w (stopwords E))) (alpha_words t)) in
  preprocess E t = Str.join " " toks /\
  Forall (fun w => lower_word w = true) toks /\
  Str.split (preprocess E t) = toks /\
  Str.forallb_chars lower_or_space (preprocess E t) = true.
Proof.
  intros Hlem toks.
  assert (Hpre : preprocess E t = Str.join " " toks).
  { unfold preprocess, toks. now rewrite split_clean_alpha_words. }
  assert (Htoks : Forall (fun w => lower_word w = true) toks).
  { unfold toks. apply Forall_map. apply Forall_forall.
    intros w Hin. apply filter_In in Hin. destruct Hin as [Hin _].
    apply Hlem. pose proof (alpha_words_lower t) as Hall.
    rewrite Forall_forall in Hall. now apply Hall. }
  rewrite Hpre. repeat split.
  - assumption.
  - now apply split_join_tokens.
  - now apply join_tokens_chars.
Qed.

Lemma preprocess_tokens_witness :
  (forall w, lower_word w = true ->
             lower_word (lemmatize example_env w) = true) /\
  preprocess example_env "The cat, sat on the mat's 3 Mats!"
  = "cat sat mat s mats" /\
  Forall (fun w => lower_word w = true) ["cat"; "sat"; "mat"; "s"; "mats"] /\
  Str.split (preprocess example_env "The cat, sat on the mat's 3 Mats!")
  = ["cat"; "sat"; "mat"; "s"; "mats"].
Proof.
  split; [exact (fun w H => H)|].
  destruct (preprocess_tokens example_env "The cat, sat on the mat's 3 Mats!"
              (fun w H => H)) as (H1 & H2 & H3 & _).
  split; [exact H1|]. split; [exact H2 | exact H3].
Defined.

(** ** Sorting by decreasing count *)

Section SortFacts.
Context {A : Type} (ltb : A -> A -> bool).

Lemma insert_desc_perm (x : string * A) (l : list (string * A)) :
  Permutation (insert_desc ltb x l) (x :: l).
Proof.
  induction l as [|y l IH]; simpl; [reflexivity|].
  destruct (ltb (snd x) (snd y)); [|reflexivity].
  rewrite IH. apply perm_swap.
Qed.

Lemma sorted_desc_perm (l : list (string * A)) :
  Permutation (sorted_desc ltb l) l.
Proof.
  induction l as [|x l IH]; simpl; [reflexivity|].
  rewrite insert_desc_perm. now constructor.
Qed.

Lemma sorted_desc_keys (l : list (string * A)) :
  NoDup (keys l) -> NoDup (keys (sorted_desc ltb l)).
Proof.
  apply Permutation_NoDup. unfold keys. apply Permutation_map.
  symmetry. apply sorted_desc_perm.
Qed.

End SortFacts.

Lemma insert_desc_sorted (x : string * Z) (l : list (string * Z)) :
  StronglySorted ge_count l -> StronglySorted ge_count (insert_desc Z.ltb x l).
Proof.
  induction 1 as [|y l Hs IH Hy]; simpl.
  - repeat constructor.
  - destruct (Z.ltb_spec (snd x) (snd y)) as [Hlt|Hge].
    + constructor; [assumption|].
      rewrite insert_desc_perm.
      constructor; [unfold ge_count; lia | assumption].
    + constructor; [now constructor|].
      constructor; [exact Hge|].
      apply (Forall_impl (P := ge_count y)); [|assumption].
      unfold ge_count. intros a Ha. lia.
Qed.

Lemma sorted_desc_sorted (l : list (string * Z)) :
  StronglySorted ge_count (sorted_desc Z.ltb l).
Proof.
  induction l as [|x l IH]; simpl; [constructor|].
  now apply insert_desc_sorted.
Qed.

(** The sort is stable: the entries with a given count keep their order. *)
Lemma insert_desc_stable (c : Z) (x : string * Z) (l : list (string * Z)) :
  filter (has_count c) (insert_desc Z.ltb x l) = filter (has_count c) (x :: l).
Proof.
  induction l as [|y l IH]; [reflexivity|].
  cbn [insert_desc]. destruct (Z.ltb_spec (snd x) (snd y)) as [Hlt|Hge].
  - cbn [filter] in *. rewrite IH. unfold has_count.
    destruct (Z.eqb_spec (snd x) c), (Z.eqb_spec (snd y) c);
      try reflexivity; lia.
  - reflexivity.
Qed.

Lemma sorted_desc_stable (c : Z) (l : list (string * Z)) :
  filter (has_count c) (sorted_desc Z.ltb l) = filter (has_count c) l.
Proof.
  induction l as [|x l IH]; [reflexivity|].
  cbn [sorted_desc]. rewrite insert_desc_stable. cbn [filter]. now rewrite IH.
Qed.

Lemma sorted_app_ge {B : Type} (R : B -> B -> Prop) (l1 l2 : list B) :
  StronglySorted R (l1 ++ l2) ->
  forall a b, In a l1 -> In b l2 -> R a b.
Proof.
  induction l1 as [|x l1 IH]; simpl; intros Hs a b Ha Hb; [contradiction|].
  inversion Hs as [|? ? Hs' Hall]; subst.
  destruct Ha as [->|Ha].
  - rewrite Forall_forall in Hall. apply Hall. apply in_or_app. now right.
  - now apply IH.
Qed.

Lemma filter_split {B : Type} (p : B -> bool) (l a b : list B) (x : B) :
  filter p l = a ++ x :: b ->
  exists l1 l2, l = l1 ++ x :: l2 /\ filter p l1 = a /\ filter p l2 = b.
Proof.
  revert a. induction l as [|y l IH]; intros a H; simpl in H.
  - destruct a; discriminate.
  - destruct (p y) eqn:Hp.
    + destruct a as [|y' a]; simpl in H; inversion H; subst.
      * exists [], l. auto.
      * destruct (IH a H2) as (l1 & l2 & -> & <- & <-).
        exists (y' :: l1), l2. simpl. rewrite Hp. auto.
    + destruct (IH a H) as (l1 & l2 & -> & <- & <-).
      exists (y :: l1), l2. simpl. rewrite Hp. auto.
Qed.

Lemma filter_precedes {B : Type} (p : B -> bool) (l a b c : list B) (x y : B) :
  filter p l = a ++ x :: b ++ y :: c -> precedes x y l.
Proof.
  intros H. destruct (filter_split p l a (b ++ y :: c) x H) as (l1 & l2 & -> & _ & H2).
  destruct (filter_split p l2 b c y H2) as (m1 & m2 & -> & _ & _).
  now exists l1, m1, m2.
Qed.

Lemma keys_firstn {B : Type} (n : nat) (l : list (string * B)) :
  NoDup (keys l) -> NoDup (keys (firstn n l)).
Proof.
  intros Hnd. unfold keys in *. rewrite <- (firstn_skipn n l) in Hnd.
  rewrite map_app in Hnd. now apply NoDup_app_remove_r in Hnd.
Qed.

Lemma top_k_firstn (k : Z) (d : dict string Z) :
  (0 < k)%Z -> NoDup (keys d) ->
  top_k Z.ltb k d = firstn (Z.to_nat k) (sorted_desc Z.ltb d).
Proof.
  intros Hk Hnd. unfold top_k, slice_to, items.
  destruct (Z.leb_spec 0 k); [|lia].
  apply of_items_distinct. apply keys_firstn. now apply sorted_desc_keys.
Qed.

(** [top_k] keeps the [k] largest counts, ties by insertion order. *)
Lemma top_k_is_top_k (k : Z) (d : dict string Z) :
  (0 < k)%Z -> NoDup (keys d) -> is_top_k k d (top_k Z.ltb k d).
Proof.
  intros Hk Hnd. rewrite top_k_firstn by assumption.
  set (s := sorted_desc Z.ltb d). set (n := Z.to_nat k).
  assert (Hperm : Permutation s d) by apply sorted_desc_perm.
  assert (Hs : NoDup (keys s)) by now apply sorted_desc_keys.
  assert (Hin : forall e, In e (firstn n s) -> In e d).
  { intros e He. apply (Permutation_in _ Hperm).
    rewrite <- (firstn_skipn n s). apply in_or_app. now left. }
  unfold is_top_k. repeat split.
  - rewrite length_firstn. now rewrite (Permutation_length Hperm).
  - now apply keys_firstn.
  - intros w c Hget. apply In_get_Some; [assumption|].
    apply Hin. now apply get_Some_In.
  - intros e e' He He' Hout.
    assert (Hrest : In e' (skipn n s)).
    { apply (Permutation_in _ (Permutation_sym Hperm)) in He'.
      rewrite <- (firstn_skipn n s) in He'. apply in_app_or in He'. tauto. }
    pose proof (sorted_desc_sorted d) as Hsorted. fold s in Hsorted.
    rewrite <- (firstn_skipn n s) in Hsorted.
    pose proof (sorted_app_ge _ _ _ Hsorted e e' He Hrest) as Hge.
    unfold ge_count in Hge.
    destruct (Z.eq_dec (snd e') (snd e)) as [Heq|Hne]; [right|left; lia].
    split; [assumption|].
    destruct (in_split _ _ He) as (a1 & a2 & Ha).
    destruct (in_split _ _ Hrest) as (b1 & b2 & Hb).
    apply (filter_precedes (has_count (snd e)) d
             (filter (has_count (snd e)) a1)
             (filter (has_count (snd e)) (a2 ++ b1))
             (filter (has_count (snd e)) b2)).
    rewrite <- (sorted_desc_stable (snd e) d). fold s.
    rewrite <- (firstn_skipn n s), Ha, Hb.
    rewrite <- !app_assoc.
    repeat (rewrite filter_app; cbn [filter app]).
    assert (He1 : has_count (snd e) e = true) by apply Z.eqb_refl.
    assert (He2 : has_count (snd e) e' = true)
      by (unfold has_count; rewrite Heq; apply Z.eqb_refl).
    rewrite He1, He2, <- !app_assoc. reflexivity.
Qed.

(** ** The registry *)

Section SetFacts.
Context {K V : Type} {HK : Hashable K}.

Lemma set_set (k : K) (v v' : V) (d : dict K V) :
  set k v (set k v' d) = set k v d.
Proof.
  induction d as [|[k0 v0] d IH]; simpl.
  - now rewrite key_eqb_refl.
  - destruct (key_eqb k k0) eqn:E; simpl.
    + now rewrite key_eqb_refl.
    + now rewrite E, IH.
Qed.

End SetFacts.

Lemma set_getitem_default (s : string) (inner : dict label value)
  (data : registry) :
  set s inner (fst (getitem_default s data)) = set s inner data.
Proof.
  unfold getitem_default. destruct (get s data); simpl; [reflexivity|].
  apply set_set.
Qed.

Lemma get_getitem_default (s s' : string) (data : registry) :
  s <> s' -> get s' (fst (getitem_default s data)) = get s' data.
Proof.
  intros Hne. unfold getitem_default. destruct (get s data); simpl; [reflexivity|].
  now apply get_set_ne.
Qed.

Lemma stat_getitem_default (s : string) (lbl : label) (data : registry) :
  stat data s lbl = get lbl (snd (getitem_default s data)).
Proof.
  unfold stat, getitem_default. now destruct (get s data).
Qed.

Lemma stat_set_same (s : string) (inner : dict label value) (lbl : label)
  (data : registry) :
  stat (set s inner data) s lbl = get lbl inner.
Proof. unfold stat. now rewrite get_set_eq. Qed.

Lemma stat_set_other (s s' : string) (inner : dict label value) (lbl : label)
  (data : registry) :
  s <> s' -> stat (set s inner data) s' lbl = stat data s' lbl.
Proof. intros Hne. unfold stat. now rewrite get_set_ne. Qed.

Lemma wf_registry_inner (data : registry) (s : string) :
  wf_registry data -> NoDup (keys (snd (getitem_default s data))).
Proof.
  intros [_ Hwf]. unfold getitem_default.
  destruct (get s data) as [inner|] eqn:E; simpl; [|constructor].
  apply get_Some_In in E. now destruct (Hwf _ _ E).
Qed.

Lemma wf_registry_stat (data : registry) (s : string) (lbl : label) (v : value) :
  wf_registry data -> stat data s lbl = Some v -> wf_value v.
Proof.
  intros [_ Hwf]. unfold stat. destruct (get s data) as [inner|] eqn:E;
    [|discriminate].
  intros Hget. apply get_Some_In in E, Hget.
  destruct (Hwf _ _ E) as [_ Hv]. now apply (Hv lbl).
Qed.

(** ** The loop of [get_wordcount] *)

Lemma filter_loop_ok (body : value -> result value) (filenames : list label)
  (wc : dict label value) :
  NoDup filenames ->
  (forall l, In l filenames ->
     exists v v', get l wc = Some v /\ body v = Ok v') ->
  exists wc',
    filter_loop body filenames wc = (wc', Ok tt) /\
    keys wc' = keys wc /\
    (forall l, In l filenames ->
       get l wc' = option_map (body_value body) (get l wc)) /\
    (forall l, ~ In l filenames -> get l wc' = get l wc).
Proof.
  revert wc. induction filenames as [|f rest IH]; intros wc Hnd Hok.
  - exists wc. simpl. repeat split; tauto.
  - inversion Hnd as [|? ? Hnotin Hnd']; subst.
    destruct (Hok f (or_introl eq_refl)) as (v & v' & Hget & Hbody).
    cbn [filter_loop]. rewrite Hget, Hbody.
    assert (Hother : forall l, l <> f -> get l (set f v' wc) = get l wc).
    { intros l Hl. apply get_set_ne. congruence. }
    destruct (IH (set f v' wc) Hnd') as (wc' & Hrun & Hkeys & Hin & Hout).
    { intros l Hl. rewrite Hother by (intros ->; contradiction).
      apply Hok. now right. }
    exists wc'. split; [exact Hrun|]. split; [|split].
    + rewrite Hkeys. apply keys_set_present. congruence.
    + intros l [<-|Hl].
      * rewrite (Hout f Hnotin), get_set_eq, Hget. simpl.
        unfold body_value. now rewrite Hbody.
      * rewrite (Hin l Hl), Hother; [reflexivity|]. intros ->; contradiction.
    + intros l Hl. rewrite Hout by (intros H; apply Hl; now right).
      apply Hother. intros ->. apply Hl. now left.
Qed.

Lemma get_wordcount_unfold (E : Env) (data : registry)
  (word_list : option (list string)) (k : Z) :
  check_get_wordcount (exception E) word_list k = Ok tt ->
  get_wordcount E data word_list k =
  let run := filter_loop (wordcount_body word_list k)
                         (keys (wordcount_of data)) (wordcount_of data) in
  (set "wordcount" (fst run) data, snd run).
Proof.
  intros Hcheck. unfold get_wordcount, wordcount_of. rewrite Hcheck.
  destruct (getitem_default "wordcount" data) as [data1 wc] eqn:Hd.
  cbn [snd]. destruct (filter_loop _ _ wc) as [wc' r]. cbn [fst snd].
  f_equal. replace data1 with (fst (getitem_default "wordcount" data))
    by now rewrite Hd.
  apply set_getitem_default.
Qed.

Lemma get_wordcount_other_keys (E : Env) (data : registry)
  (word_list : option (list string)) (k : Z) (s : string) :
  s <> "wordcount" ->
  get s (fst (get_wordcount E data word_list k)) = get s data.
Proof.
  intros Hne. unfold get_wordcount.
  destruct (check_get_wordcount (exception E) word_list k); [|reflexivity].
  destruct (getitem_default "wordcount" data) as [data1 wc] eqn:Hd.
  destruct (filter_loop _ _ wc) as [wc' r]. cbn [fst].
  rewrite get_set_ne by congruence.
  replace data1 with (fst (getitem_default "wordcount" data)) by now rewrite Hd.
  apply get_getitem_default. congruence.
Qed.

(** A successful run of [get_wordcount]: every registered word-count value
    is replaced by what the loop body makes of it. *)
Lemma get_wordcount_success (E : Env) (data : registry)
  (word_list : option (list string)) (k : Z) :
  check_get_wordcount (exception E) word_list k = Ok tt ->
  wf_registry data ->
  (forall lbl v, stat data "wordcount" lbl = Some v ->
     exists v', wordcount_body word_list k v = Ok v') ->
  exists data',
    get_wordcount E data word_list k = (data', Ok tt) /\
    forall lbl,
      stat data' "wordcount" lbl =
      option_map (body_value (wordcount_body word_list k))
                 (stat data "wordcount" lbl).
Proof.
  intros Hcheck Hwf Hbody.
  rewrite (get_wordcount_unfold E data word_list k Hcheck).
  pose proof (wf_registry_inner data "wordcount" Hwf) as Hnd.
  fold (wordcount_of data) in Hnd.
  destruct (filter_loop_ok (wordcount_body word_list k)
              (keys (wordcount_of data)) (wordcount_of data) Hnd)
    as (wc' & Hrun & _ & Hin & Hout).
  { intros l Hl. destruct (get l (wordcount_of data)) as [v|] eqn:Hget.
    - destruct (Hbody l v) as [v' Hv'].
      + now rewrite stat_getitem_default.
      + now exists v, v'.
    - apply get_None_iff in Hget. contradiction. }
  cbv zeta. rewrite Hrun. cbn [fst snd].
  eexists. split; [reflexivity|].
  intros lbl. rewrite stat_set_same, (stat_getitem_default "wordcount" lbl data).
  change (snd (getitem_default "wordcount" data)) with (wordcount_of data).
  destruct (in_dec (fun x y => reflect_dec _ _ (option_eqb_spec x y)) lbl
              (keys (wordcount_of data))) as [Hl|Hl].
  - now apply Hin.
  - rewrite (Hout lbl Hl). apply get_None_iff in Hl.
    unfold label in *. now rewrite Hl.
Qed.

(** ** Deciding well-formedness *)

Lemma distinctb_sound {K : Type} {HK : Hashable K} (l : list K) :
  distinctb l = true -> NoDup l.
Proof.
  induction l as [|x l IH]; simpl; [constructor|].
  rewrite andb_true_iff, negb_true_iff. intros [Hx Hl].
  constructor; [|auto].
  intros Hin. assert (Hex : existsb (key_eqb x) l = true).
  { apply existsb_exists. exists x. split; [assumption|apply key_eqb_refl]. }
  congruence.
Qed.

Lemma wf_valueb_sound (v : value) : wf_valueb v = true -> wf_value v.
Proof. destruct v; simpl; try apply distinctb_sound; auto. Qed.

Lemma wf_resultsb_sound (results : dict string value) :
  wf_resultsb results = true -> wf_results results.
Proof.
  unfold wf_resultsb, wf_results. rewrite andb_true_iff, forallb_forall.
  intros [Hk Hv]. split; [now apply distinctb_sound|].
  intros s v Hin. apply wf_valueb_sound. apply (Hv (s, v) Hin).
Qed.

Lemma wf_registryb_sound (data : registry) :
  wf_registryb data = true -> wf_registry data.
Proof.
  unfold wf_registryb, wf_registry. rewrite andb_true_iff, forallb_forall.
  intros [Hk Hall]. split; [now apply distinctb_sound|].
  intros s inner Hin. specialize (Hall (s, inner) Hin). cbn [snd] in Hall.
  rewrite andb_true_iff, forallb_forall in Hall. destruct Hall as [Hl Hv].
  split; [now apply distinctb_sound|].
  intros lbl v Hlv. apply wf_valueb_sound. apply (Hv (lbl, v) Hlv).
Qed.

Lemma counts_shapedb_sound (data : registry) :
  counts_shapedb data = true -> counts_shaped data.
Proof.
  unfold counts_shapedb, counts_shaped, wordcount_of.
  rewrite forallb_forall. intros Hall lbl v Hstat.
  rewrite stat_getitem_default in Hstat. apply get_Some_In in Hstat.
  assert (Hv : is_counts v = true).
  { apply Hall. unfold values. change v with (snd (lbl, v)). now apply in_map. }
  destruct v; try discriminate. now eexists.
Qed.

(** ** The word-list branch *)

Lemma mem_In (w : string) (l : list string) : Str.mem w l = true <-> In w l.
Proof.
  unfold Str.mem. rewrite existsb_exists. split.
  - intros (x & Hin & Heq). apply String.eqb_eq in Heq. now subst.
  - intros Hin. exists w. split; [assumption|apply String.eqb_refl].
Qed.

Lemma select_words_loop {A : Type} (word_list : list string)
  (l acc : list (string * A)) :
  NoDup (keys (acc ++ l)) ->
  fold_left
    (fun temp_dict kv =>
       if Str.mem (fst kv) word_list then set (fst kv) (snd kv) temp_dict
       else temp_dict) l acc
  = acc ++ filter (fun kv => Str.mem (fst kv) word_list) l.
Proof.
  revert acc. induction l as [|[w c] l IH]; intros acc Hnd; simpl.
  - now rewrite app_nil_r.
  - destruct (Str.mem w word_list).
    + assert (Hnone : get w acc = None).
      { apply get_None_iff. unfold keys in *. rewrite map_app in Hnd.
        simpl in Hnd. apply NoDup_remove_2 in Hnd. intros Hin. apply Hnd.
        apply in_or_app. now left. }
      rewrite (set_absent _ _ _ Hnone), IH.
      * now rewrite <- app_assoc.
      * now rewrite <- app_assoc.
    + apply IH. unfold keys in *. rewrite map_app in *. simpl in Hnd.
      now apply NoDup_remove_1 in Hnd.
Qed.

Lemma select_words_filter {A : Type} (word_list : list string)
  (d : dict string A) :
  NoDup (keys d) ->
  select_words word_list d = filter (fun kv => Str.mem (fst kv) word_list) d.
Proof. intros Hnd. unfold select_words, items. now rewrite select_words_loop. Qed.

Lemma get_filter_keys {A : Type} (q : string -> bool) (w : string)
  (d : dict string A) :
  get w (filter (fun kv => q (fst kv)) d) = if q w then get w d else None.
Proof.
  induction d as [|[w' c] d IH]; simpl.
  - now destruct (q w).
  - destruct (q w') eqn:Hq; simpl.
    + destruct (String.eqb_spec w w') as [->|Hne].
      * now rewrite Hq.
      * exact IH.
    + destruct (String.eqb_spec w w') as [->|Hne].
      * rewrite IH, Hq. reflexivity.
      * exact IH.
Qed.

Lemma select_words_nil {A : Type} (d : dict string A) : select_words [] d = [].
Proof.
  unfold select_words, items. induction d as [|kv d IH]; simpl; auto.
Qed.

(** ** The claims about [get_wordcount] *)

(** C2.  With no word list, a positive [k] and a check that accepts the
    arguments, [get_wordcount] succeeds on every well-formed registry whose
    word counts are mappings; the labels registered stay the same, and each
    label's new mapping is the [k] largest-count entries of its prior
    mapping, ties broken by the prior insertion order: at most [k] entries,
    each with its original count. *)
Theorem get_wordcount_top_k (E : Env) (data : registry) (k : Z) :
  check_get_wordcount (exception E) None k = Ok tt ->
  (0 < k)%Z ->
  wf_registry data ->
  counts_shaped data ->
  exists data',
    get_wordcount E data None k = (data', Ok tt) /\
    forall lbl,
      match stat data "wordcount" lbl with
      | None => stat data' "wordcount" lbl = None
      | Some v =>
          exists old new,
            v = VCounts old /\
            stat data' "wordcount" lbl = Some (VCounts new) /\
            (Z.of_nat (List.length new) <= k)%Z /\
            is_top_k k old new
      end.
Proof.
  intros Hcheck Hk Hwf Hshape.
  destruct (get_wordcount_success E data None k Hcheck Hwf)
    as (data' & Hrun & Hstat).
  { intros lbl v Hv. destruct (Hshape lbl v Hv) as [d ->]. now eexists. }
  exists data'. split; [exact Hrun|].
  intros lbl. rewrite Hstat.
  destruct (stat data "wordcount" lbl) as [v|] eqn:Hv; [|reflexivity].
  destruct (Hshape lbl v Hv) as [old ->].
  pose proof (wf_registry_stat data "wordcount" lbl _ Hwf Hv) as Hold.
  simpl in Hold.
  pose proof (top_k_is_top_k k old Hk Hold) as Htop.
  exists old, (top_k Z.ltb k old). repeat split; try apply Htop.
  destruct Htop as [Hlen _]. rewrite Hlen. lia.
Qed.

Lemma get_wordcount_top_k_witness :
  exists data',
    get_wordcount example_env example_registry None 2 = (data', Ok tt) /\
    forall lbl,
      match stat example_registry "wordcount" lbl with
      | None => stat data' "wordcount" lbl = None
      | Some v =>
          exists old new,
            v = VCounts old /\
            stat data' "wordcount" lbl = Some (VCounts new) /\
            (Z.of_nat (List.length new) <= 2)%Z /\
            is_top_k 2 old new
      end.
Proof.
  apply get_wordcount_top_k.
  - reflexivity.
  - lia.
  - apply wf_registryb_sound. reflexivity.
  - apply counts_shapedb_sound. reflexivity.
Defined.

(** C3.  With a word list [W] and checks that accept the arguments,
    [get_wordcount] succeeds on every well-formed registry whose word counts
    are mappings; each label's new mapping holds exactly the words of its
    prior mapping that are in [W], each with its original count (so its keys
    are a subset of [W] and of the original keys), and the result is the
    same for every [k]. *)
Theorem get_wordcount_word_list (E : Env) (data : registry)
  (W : list string) (k k' : Z) :
  check_get_wordcount (exception E) (Some W) k = Ok tt ->
  check_get_wordcount (exception E) (Some W) k' = Ok tt ->
  wf_registry data ->
  counts_shaped data ->
  exists data',
    get_wordcount E data (Some W) k = (data', Ok tt) /\
    get_wordcount E data (Some W) k' = (data', Ok tt) /\
    forall lbl,
      match stat data "wordcount" lbl with
      | None => stat data' "wordcount" lbl = None
      | Some v =>
          exists old new,
            v = VCounts old /\
            stat data' "wordcount" lbl = Some (VCounts new) /\
            forall w c,
              get w new = Some c <-> In w W /\ get w old = Some c
      end.
Proof.
  intros Hcheck Hcheck' Hwf Hshape.
  destruct (get_wordcount_success E data (Some W) k Hcheck Hwf)
    as (data' & Hrun & Hstat).
  { intros lbl v Hv. destruct (Hshape lbl v Hv) as [d ->]. now eexists. }
  exists data'. split; [exact Hrun|]. split.
  - rewrite <- Hrun.
    rewrite (get_wordcount_unfold E data (Some W) k' Hcheck').
    rewrite (get_wordcount_unfold E data (Some W) k Hcheck). reflexivity.
  - intros lbl. rewrite Hstat.
    destruct (stat data "wordcount" lbl) as [v|] eqn:Hv; [|reflexivity].
    destruct (Hshape lbl v Hv) as [old ->].
    pose proof (wf_registry_stat data "wordcount" lbl _ Hwf Hv) as Hold.
    simpl in Hold.
    exists old, (select_words W old).
    split; [reflexivity|]. split; [reflexivity|].
    intros w c. rewrite select_words_filter by assumption.
    rewrite (get_filter_keys (fun x => Str.mem x W)).
    destruct (Str.mem w W) eqn:Hm.
    + apply mem_In in Hm. tauto.
    + split; [discriminate|]. intros [Hin _].
      apply mem_In in Hin. congruence.
Qed.

Lemma get_wordcount_word_list_witness :
  exists data',
    get_wordcount example_env example_registry (Some ["cat"; "red"; "owl"]) 5
    = (data', Ok tt) /\
    get_wordcount example_env example_registry (Some ["cat"; "red"; "owl"]) 1
    = (data', Ok tt) /\
    forall lbl,
      match stat example_registry "wordcount" lbl with
      | None => stat data' "wordcount" lbl = None
      | Some v =>
          exists old new,
            v = VCounts old /\
            stat data' "wordcount" lbl = Some (VCounts new) /\
            forall w c,
              get w new = Some c <->
              In w ["cat"; "red"; "owl"] /\ get w old = Some c
      end.
Proof.
  apply get_wordcount_word_list.
  - reflexivity.
  - reflexivity.
  - apply wf_registryb_sound. reflexivity.
  - apply counts_shapedb_sound. reflexivity.
Defined.

(** C10.  An empty word list takes the word-list branch: when the check
    accepts the arguments, [get_wordcount] succeeds on every well-formed
    registry whose word counts are mappings and leaves every registered
    label with an empty word-count mapping, whatever [k] is. *)
Theorem get_wordcount_empty_word_list (E : Env) (data : registry) (k : Z) :
  check_get_wordcount (exception E) (Some []) k = Ok tt ->
  wf_registry data ->
  counts_shaped data ->
  exists data',
    get_wordcount E data (Some []) k = (data', Ok tt) /\
    forall lbl,
      stat data' "wordcount" lbl =
      match stat data "wordcount" lbl with
      | Some _ => Some (VCounts [])
      | None => None
      end.
Proof.
  intros Hcheck Hwf Hshape.
  destruct (get_wordcount_success E data (Some []) k Hcheck Hwf)
    as (data' & Hrun & Hstat).
  { intros lbl v Hv. destruct (Hshape lbl v Hv) as [d ->]. now eexists. }
  exists data'. split; [exact Hrun|].
  intros lbl. rewrite Hstat.
  destruct (stat data "wordcount" lbl) as [v|] eqn:Hv; [|reflexivity].
  destruct (Hshape lbl v Hv) as [old ->]. simpl.
  unfold body_value. simpl. now rewrite select_words_nil.
Qed.

Lemma get_wordcount_empty_word_list_witness :
  exists data',
    get_wordcount example_env example_registry (Some []) 3 = (data', Ok tt) /\
    forall lbl,
      stat data' "wordcount" lbl =
      match stat example_registry "wordcount" lbl with
      | Some _ => Some (VCounts [])
      | None => None
      end.
Proof.
  apply get_wordcount_empty_word_list.
  - reflexivity.
  - apply wf_registryb_sound. reflexivity.
  - apply counts_shapedb_sound. reflexivity.
Defined.

(** C8.  [get_wordcount] changes the registry under ["wordcount"] only:
    whatever the word list and [k], and whether or not the call succeeds,
    the mapping stored under any other statistic key is the one stored
    before. *)
Theorem get_wordcount_frame (E : Env) (data : registry)
  (word_list : option (list string)) (k : Z) (s : string) :
  s <> "wordcount" ->
  get s (fst (get_wordcount E data word_list k)) = get s data.
Proof.
  intros Hne. unfold get_wordcount.
  destruct (check_get_wordcount (exception E) word_list k); [|reflexivity].
  destruct (getitem_default "wordcount" data) as [data1 wc] eqn:Hd.
  destruct (filter_loop _ _ wc) as [wc' r]. cbn [fst].
  rewrite get_set_ne by congruence.
  replace data1 with (fst (getitem_default "wordcount" data)) by now rewrite Hd.
  apply get_getitem_default. congruence.
Qed.

Lemma get_wordcount_frame_witness :
  get "sentiment" (fst (get_wordcount example_env example_registry None 1))
  = get "sentiment" example_registry.
Proof. apply get_wordcount_frame. discriminate. Defined.

(** ** The visualization adapters *)

Lemma getitem_default_present (s : string) (data : registry) :
  get s data <> None -> fst (getitem_default s data) = data.
Proof. unfold getitem_default. now destruct (get s data). Qed.

Lemma get_wordcount_creates_key (E : Env) (data data' : registry)
  (word_list : option (list string)) (k : Z) (u : unit) :
  get_wordcount E data word_list k = (data', Ok u) ->
  get "wordcount" data' <> None.
Proof.
  unfold get_wordcount.
  destruct (check_get_wordcount (exception E) word_list k); [|discriminate].
  destruct (getitem_default "wordcount" data) as [data1 wc].
  destruct (filter_loop _ _ wc) as [wc' r].
  intros H. inversion H; subst. rewrite get_set_eq. discriminate.
Qed.

Lemma wordcount_sankey_registry (E : Env) (data : registry)
  (word_list : option (list string)) (k : Z) :
  fst (wordcount_sankey E data word_list k)
  = fst (get_wordcount E data word_list k).
Proof.
  unfold wordcount_sankey.
  destruct (get_wordcount E data word_list k) as [data' r] eqn:Hrun.
  destruct r as [u|e]; [|reflexivity].
  pose proof (get_wordcount_creates_key E data data' word_list k u Hrun) as Hkey.
  pose proof (getitem_default_present "wordcount" data' Hkey) as Hsame.
  destruct (getitem_default "wordcount" data') as [data2 wc]. exact Hsame.
Qed.

(** The adapters that read a statistic nobody registered create it, empty;
    no registered value changes. *)
Lemma second_viz_registry (E : Env) (data : registry) :
  fst (second_viz E data) = fst (getitem_default "raw_text" data).
Proof.
  unfold second_viz, second_viz_lists.
  now destruct (getitem_default "raw_text" data).
Qed.

Lemma third_viz_registry (data : registry) :
  fst (third_viz data) = fst (getitem_default "sentiment" data).
Proof. unfold third_viz. now destruct (getitem_default "sentiment" data). Qed.

Lemma getitem_default_creates (s : string) (data : registry) :
  fst (getitem_default s data)
  = match get s data with
    | Some _ => data
    | None => data ++ [(s, [])]
    end.
Proof.
  unfold getitem_default. destruct (get s data) eqn:E; [reflexivity|].
  cbn [fst]. now apply set_absent.
Qed.

Lemma getitem_default_stat (s s' : string) (lbl : label) (data : registry) :
  stat (fst (getitem_default s data)) s' lbl = stat data s' lbl.
Proof.
  unfold getitem_default.
  destruct (get s data) eqn:E; [reflexivity|]. cbn [fst].
  destruct (String.eqb_spec s s') as [<-|Hne].
  - rewrite stat_set_same. unfold stat. now rewrite E.
  - now apply stat_set_other.
Qed.

Lemma second_viz_stat (E : Env) (data : registry) (s : string) (lbl : label) :
  stat (fst (second_viz E data)) s lbl = stat data s lbl.
Proof. rewrite second_viz_registry. apply getitem_default_stat. Qed.

Lemma third_viz_stat (data : registry) (s : string) (lbl : label) :
  stat (fst (third_viz data)) s lbl = stat data s lbl.
Proof. rewrite third_viz_registry. apply getitem_default_stat. Qed.

(** C1, as the code has it.  Whatever its outcome, [second_viz] leaves the
    registry as it is when ["raw_text"] is a key of it, and otherwise adds
    ["raw_text"] with an empty mapping at its end; [third_viz] does the same
    with ["sentiment"]; neither changes the value registered for any
    statistic and label.  [wordcount_sankey] leaves the registry in the
    state [get_wordcount] leaves it in for the same arguments: it filters
    the word counts, and the mapping under any other statistic key is the
    one before the call. *)
Theorem adapters_registry (E : Env) (data : registry)
  (word_list : option (list string)) (k : Z) :
  fst (second_viz E data)
  = match get "raw_text" data with
    | Some _ => data
    | None => data ++ [("raw_text", [])]
    end /\
  fst (third_viz data)
  = match get "sentiment" data with
    | Some _ => data
    | None => data ++ [("sentiment", [])]
    end /\
  (forall s lbl, stat (fst (second_viz E data)) s lbl = stat data s lbl) /\
  (forall s lbl, stat (fst (third_viz data)) s lbl = stat data s lbl) /\
  fst (wordcount_sankey E data word_list k)
  = fst (get_wordcount E data word_list k) /\
  forall s,
    get s (fst (wordcount_sankey E data word_list k))
    = if String.eqb s "wordcount"
      then get s (fst (get_wordcount E data word_list k))
      else get s data.
Proof.
  split; [|split; [|split; [|split; [|split]]]].
  - rewrite second_viz_registry. apply getitem_default_creates.
  - rewrite third_viz_registry. apply getitem_default_creates.
  - intros s lbl. apply second_viz_stat.
  - intros s lbl. apply third_viz_stat.
  - apply wordcount_sankey_registry.
  - intros s. rewrite wordcount_sankey_registry.
    destruct (String.eqb_spec s "wordcount") as [->|Hne]; [reflexivity|].
    now apply get_wordcount_other_keys.
Qed.

Lemma adapters_registry_witness :
  fst (second_viz example_env example_registry) = example_registry /\
  fst (third_viz example_registry) = example_registry /\
  fst (second_viz example_env init) = [("raw_text", [])] /\
  fst (third_viz init) = [("sentiment", [])] /\
  fst (wordcount_sankey example_env example_registry None 5)
  = fst (get_wordcount example_env example_registry None 5) /\
  get "sentiment" (fst (wordcount_sankey example_env example_registry None 5))
  = get "sentiment" example_registry.
Proof.
  destruct (adapters_registry example_env example_registry None 5)
    as (H1 & H2 & _ & _ & H3 & H4).
  destruct (adapters_registry example_env init None 5)
    as (H5 & H6 & _).
  split; [exact H1|]. split; [exact H2|]. split; [exact H5|].
  split; [exact H6|]. split; [exact H3|]. exact (H4 "sentiment").
Defined.

(** C1, as stated, fails: with its default arguments [wordcount_sankey]
    cuts the six words counted for ["c.txt"] down to five. *)
Lemma wordcount_sankey_mutates :
  let data' := fst (wordcount_sankey example_env example_registry None 5) in
  stat example_registry "wordcount" (Some "c.txt")
  = Some (VCounts [("red", 3); ("green", 2); ("blue", 1); ("yellow", 1);
                   ("pink", 1); ("grey", 1)]%Z) /\
  stat data' "wordcount" (Some "c.txt")
  = Some (VCounts [("red", 3); ("green", 2); ("blue", 1); ("yellow", 1);
                   ("pink", 1)]%Z) /\
  data' <> example_registry.
Proof.
  cbv zeta. split; [reflexivity|]. split; [reflexivity|].
  intros H.
  assert (Hs : stat (fst (wordcount_sankey example_env example_registry None 5))
                 "wordcount" (Some "c.txt")
               = stat example_registry "wordcount" (Some "c.txt"))
    by now rewrite H.
  vm_compute in Hs. discriminate Hs.
Qed.

(** ** Registration *)

Lemma save_item_stat (lbl l : label) (data : registry) (kv : string * value)
  (s : string) :
  stat (save_item lbl data kv) s l =
  if String.eqb s (fst kv) && key_eqb l lbl then Some (snd kv)
  else stat data s l.
Proof.
  destruct kv as [k v]. unfold save_item. cbn [fst snd].
  pose proof (set_getitem_default k (set lbl v (snd (getitem_default k data)))
                data) as Hset.
  destruct (getitem_default k data) as [data1 inner] eqn:Hd. cbn [fst snd] in Hset.
  rewrite Hset.
  destruct (String.eqb_spec s k) as [->|Hne]; cbn [andb].
  - rewrite stat_set_same.
    destruct (key_eqb_spec l lbl) as [->|Hl].
    + apply get_set_eq.
    + rewrite get_set_ne by congruence.
      rewrite stat_getitem_default, Hd. reflexivity.
  - apply stat_set_other. congruence.
Qed.

(** What [_save_results] leaves in the registry: for the label, the new
    value under every key of [results]; everything else as before. *)
Lemma save_results_stat (lbl l : label) (results : dict string value)
  (data : registry) (s : string) :
  NoDup (keys results) ->
  stat (_save_results data lbl results) s l =
  if key_eqb l lbl then
    match get s results with
    | Some v => Some v
    | None => stat data s l
    end
  else stat data s l.
Proof.
  unfold _save_results, items.
  revert data. induction results as [|[k v] results IH]; intros data Hnd.
  - cbn [fold_left get]. now destruct (key_eqb l lbl).
  - inversion Hnd as [|? ? Hnotin Hnd']; subst.
    cbn [fold_left]. rewrite (IH _ Hnd'), save_item_stat. cbn [fst snd get].
    change (@key_eqb string string_hashable s k) with (String.eqb s k).
    destruct (key_eqb l lbl); [|now rewrite andb_false_r].
    rewrite andb_true_r.
    destruct (String.eqb_spec s k) as [->|Hne]; [|reflexivity].
    apply get_None_iff in Hnotin. now rewrite Hnotin.
Qed.

Lemma load_text_unfold (E : Env) (data : registry) (filename lbl : option string)
  (parser : option parser_arg) (results : dict string value) :
  check_load_text (exception E) filename lbl parser = Ok tt ->
  parse E filename parser = Ok results ->
  load_text E data filename lbl parser
  = (_save_results data (effective_label filename lbl) results, Ok tt).
Proof. intros Hcheck Hparse. unfold load_text. now rewrite Hcheck, Hparse. Qed.

(** X3.  A registration that fails, for whatever reason (a rejected
    argument, a file that cannot be read, a parser that raises or cannot be
    called), leaves the registry as it was. *)
Lemma load_text_failure (E : Env) (data : registry)
  (filename lbl : option string) (parser : option parser_arg) (e : exn) :
  snd (load_text E data filename lbl parser) = Raise e ->
  fst (load_text E data filename lbl parser) = data.
Proof.
  unfold load_text.
  destruct (check_load_text (exception E) filename lbl parser); [|reflexivity].
  destruct (parse E filename parser); [discriminate|reflexivity].
Qed.

(** C4, as the code has it.  A registration that passes the check and whose
    parser returns [results] stores, for its label, the value of [results]
    under every statistic key of [results]; under a key that [results] does
    not have the label keeps the value it had, and no other label changes.
    So a second registration replaces the label's statistics key by key. *)
Theorem load_text_replaces_per_key (E : Env) (data : registry)
  (filename lbl : option string) (parser : option parser_arg)
  (results : dict string value) :
  check_load_text (exception E) filename lbl parser = Ok tt ->
  parse E filename parser = Ok results ->
  NoDup (keys results) ->
  exists data',
    load_text E data filename lbl parser = (data', Ok tt) /\
    forall s l,
      stat data' s l =
      if key_eqb l (effective_label filename lbl) then
        match get s results with
        | Some v => Some v
        | None => stat data s l
        end
      else stat data s l.
Proof.
  intros Hcheck Hparse Hnd.
  exists (_save_results data (effective_label filename lbl) results). split.
  - now apply load_text_unfold.
  - intros s l. now apply save_results_stat.
Qed.

Lemma load_text_replaces_per_key_witness :
  exists data',
    load_text example_env registered_once (Some "two.txt") (Some "doc")
      (Some second_parser) = (data', Ok tt) /\
    forall s l,
      stat data' s l =
      if key_eqb l (Some "doc") then
        match get s second_results with
        | Some v => Some v
        | None => stat registered_once s l
        end
      else stat registered_once s l.
Proof.
  apply (load_text_replaces_per_key example_env registered_once
           (Some "two.txt") (Some "doc") (Some second_parser) second_results).
  - reflexivity.
  - reflexivity.
  - apply distinctb_sound. reflexivity.
Defined.

(** C4, as stated, fails: after the second registration of ["doc"] the
    registry still holds the ["topic"] of the first, which the second
    parser's result does not have. *)
Lemma load_text_twice_keeps_first :
  stat registered_twice "topic" (Some "doc") = Some (VText "first") /\
  get "topic" second_results = None /\
  ~ (forall s, stat registered_twice s (Some "doc") = get s second_results).
Proof.
  split; [reflexivity|]. split; [reflexivity|].
  intros H. specialize (H "topic"). vm_compute in H. discriminate H.
Qed.

(** C9.  When a label is registered a second time and the second parser's
    result has no statistic key [s] that the first result had, the label
    keeps the first value under [s]; the keys of the second result are
    overwritten. *)
Theorem reregistration_keeps_omitted_key (E : Env) (data : registry)
  (filename1 lbl1 filename2 lbl2 : option string)
  (parser1 parser2 : option parser_arg) (results1 results2 : dict string value)
  (s : string) (v : value) :
  check_load_text (exception E) filename1 lbl1 parser1 = Ok tt ->
  parse E filename1 parser1 = Ok results1 ->
  check_load_text (exception E) filename2 lbl2 parser2 = Ok tt ->
  parse E filename2 parser2 = Ok results2 ->
  NoDup (keys results1) ->
  NoDup (keys results2) ->
  effective_label filename1 lbl1 = effective_label filename2 lbl2 ->
  get s results1 = Some v ->
  get s results2 = None ->
  let data1 := fst (load_text E data filename1 lbl1 parser1) in
  let data2 := fst (load_text E data1 filename2 lbl2 parser2) in
  stat data2 s (effective_label filename2 lbl2) = Some v /\
  forall s' v', get s' results2 = Some v' ->
    stat data2 s' (effective_label filename2 lbl2) = Some v'.
Proof.
  intros Hc1 Hp1 Hc2 Hp2 Hnd1 Hnd2 Hlbl Hs1 Hs2 data1 data2.
  unfold data2, data1.
  rewrite (load_text_unfold E data filename1 lbl1 parser1 results1 Hc1 Hp1).
  cbn [fst].
  rewrite (load_text_unfold E _ filename2 lbl2 parser2 results2 Hc2 Hp2).
  cbn [fst]. split.
  - rewrite save_results_stat by assumption.
    rewrite key_eqb_refl, Hs2.
    rewrite save_results_stat by assumption.
    now rewrite Hlbl, key_eqb_refl, Hs1.
  - intros s' v' Hs'. rewrite save_results_stat by assumption.
    now rewrite key_eqb_refl, Hs'.
Qed.

Lemma reregistration_keeps_omitted_key_witness :
  stat registered_twice "topic" (Some "doc") = Some (VText "first") /\
  forall s' v', get s' second_results = Some v' ->
    stat registered_twice s' (Some "doc") = Some v'.
Proof.
  apply (reregistration_keeps_omitted_key example_env init
           (Some "one.txt") (Some "doc") (Some "two.txt") (Some "doc")
           (Some first_parser) (Some second_parser)
           first_results second_results "topic" (VText "first"));
    try reflexivity; apply distinctb_sound; reflexivity.
Defined.

(** C7.  With the check of the specification, [load_text] raises
    [ValidationError] when the filename is absent or empty, and when a
    parser is given that cannot be called; the registry is the one before
    the call. *)
Theorem load_text_validation (E : Env) (data : registry)
  (filename lbl : option string) (parser : option parser_arg) :
  check_load_text (exception E) = spec_check_load_text ->
  filename = None \/ filename = Some "" \/ parser = Some NotCallable ->
  load_text E data filename lbl parser = (data, Raise ValidationError).
Proof.
  intros Hcheck Hbad. unfold load_text. rewrite Hcheck.
  unfold spec_check_load_text.
  destruct Hbad as [-> | [-> | ->]]; [reflexivity|reflexivity|].
  destruct filename as [f|]; [|reflexivity].
  now destruct (String.eqb f "").
Qed.

Lemma load_text_validation_witness :
  load_text example_env example_registry (Some "a.txt") (Some "doc")
    (Some NotCallable)
  = (example_registry, Raise ValidationError).
Proof.
  apply load_text_validation; [reflexivity | right; right; reflexivity].
Defined.

(** ** Well-formedness is an invariant *)

Section InFacts.
Context {K V : Type} {HK : Hashable K}.

Lemma In_set (k k' : K) (v v' : V) (d : dict K V) :
  In (k', v') (set k v d) -> (k' = k /\ v' = v) \/ In (k', v') d.
Proof.
  induction d as [|[k0 v0] d IH]; simpl.
  - intros [H|[]]. left. inversion H; auto.
  - destruct (key_eqb k k0); simpl.
    + intros [H|H]; [left; inversion H; auto | right; right; exact H].
    + intros [H|H]; [right; left; exact H|].
      destruct (IH H) as [?|?]; [left; assumption | right; right; assumption].
Qed.

Lemma fold_set_keys {X : Type} (step : X -> option (K * V)) (l : list X)
  (acc : dict K V) :
  NoDup (keys acc) ->
  NoDup (keys (fold_left
                 (fun d x => match step x with
                             | Some kv => set (fst kv) (snd kv) d
                             | None => d
                             end) l acc)).
Proof.
  revert acc. induction l as [|x l IH]; intros acc Hacc; simpl; [assumption|].
  apply IH. destruct (step x); [now apply NoDup_keys_set | assumption].
Qed.

End InFacts.

Lemma of_items_keys {A : Type} (l : list (string * A)) :
  NoDup (keys (of_items l)).
Proof.
  unfold of_items.
  apply (fold_set_keys (fun kv => Some kv) l []). constructor.
Qed.

Lemma select_words_keys {A : Type} (word_list : list string)
  (d : dict string A) : NoDup (keys (select_words word_list d)).
Proof.
  unfold select_words, items.
  assert (H : forall acc : dict string A, NoDup (keys acc) ->
            NoDup (keys (fold_left
              (fun temp_dict kv =>
                 if Str.mem (fst kv) word_list
                 then set (fst kv) (snd kv) temp_dict
                 else temp_dict) d acc))).
  { induction d as [|kv d IH]; intros acc Hacc; simpl; [assumption|].
    apply IH. destruct (Str.mem (fst kv) word_list);
      [now apply NoDup_keys_set | assumption]. }
  apply H. constructor.
Qed.

Lemma wordcount_body_wf (word_list : option (list string)) (k : Z)
  (v v' : value) :
  wordcount_body word_list k v = Ok v' -> wf_value v'.
Proof.
  unfold wordcount_body, filter_value.
  destruct word_list as [wl|], v as [d|d|t]; intros H; inversion H; subst;
    simpl; first [apply select_words_keys | apply of_items_keys].
Qed.

Lemma wf_inner_set (lbl : label) (v : value) (inner : dict label value) :
  wf_inner inner -> wf_value v -> wf_inner (set lbl v inner).
Proof.
  intros [Hk Hv] Hwf. split; [now apply NoDup_keys_set|].
  intros l u Hin. apply In_set in Hin. destruct Hin as [[_ ->]|Hin]; eauto.
Qed.

Lemma wf_registry_getitem (data : registry) (s : string) :
  wf_registry data -> wf_inner (snd (getitem_default s data)).
Proof.
  intros [_ Hwf]. unfold getitem_default.
  destruct (get s data) as [inner|] eqn:E; simpl.
  - apply get_Some_In in E. exact (Hwf _ _ E).
  - split; [constructor | intros ? ? []].
Qed.

Lemma wf_registry_set (data : registry) (s : string)
  (inner : dict label value) :
  wf_registry data -> wf_inner inner -> wf_registry (set s inner data).
Proof.
  intros [Hk Hwf] Hinner. split; [now apply NoDup_keys_set|].
  intros s' inner' Hin. apply In_set in Hin.
  destruct Hin as [[_ ->]|Hin]; [exact Hinner | exact (Hwf _ _ Hin)].
Qed.

Lemma wf_registry_vivify (data : registry) (s : string) :
  wf_registry data -> wf_registry (fst (getitem_default s data)).
Proof.
  intros Hwf. unfold getitem_default.
  destruct (get s data); simpl; [assumption|].
  apply wf_registry_set; [assumption|]. split; [constructor | intros ? ? []].
Qed.

Lemma save_results_wf (lbl : label) (results : dict string value)
  (data : registry) :
  wf_registry data -> (forall s v, In (s, v) results -> wf_value v) ->
  wf_registry (_save_results data lbl results).
Proof.
  unfold _save_results, items. revert data.
  induction results as [|[k v] results IH]; intros data Hwf Hres; simpl;
    [assumption|].
  apply IH; [|intros s u Hin; apply (Hres s u); now right].
  unfold save_item. cbn [fst snd].
  pose proof (set_getitem_default k (set lbl v (snd (getitem_default k data)))
                data) as Hset.
  pose proof (wf_registry_getitem data k Hwf) as Hinner.
  destruct (getitem_default k data) as [data1 inner]. cbn [fst snd] in *.
  rewrite Hset. apply wf_registry_set; [assumption|].
  apply wf_inner_set; [assumption|]. apply (Hres k v). now left.
Qed.

Lemma default_parser_wf (E : Env) (filename : option string)
  (results : dict string value) :
  wf_env E -> _default_parser E filename = Ok results -> wf_results results.
Proof.
  intros HE. unfold _default_parser, bind.
  destruct (check_default_parser (exception E) filename); [|discriminate].
  destruct filename as [f|]; [|discriminate].
  destruct (open_read E f) as [content|]; [|discriminate].
  intros H. inversion H; subst. split.
  - apply distinctb_sound. reflexivity.
  - intros s v [Hin|[Hin|[Hin|[]]]]; inversion Hin; subst; simpl; auto.
    apply count_keys_distinct.
Qed.

Lemma load_text_wf (E : Env) (data : registry) (filename lbl : option string)
  (parser : option parser_arg) :
  wf_env E -> wf_parser parser -> wf_registry data ->
  wf_registry (fst (load_text E data filename lbl parser)).
Proof.
  intros HE Hp Hwf. unfold load_text.
  destruct (check_load_text (exception E) filename lbl parser); [|assumption].
  destruct (parse E filename parser) as [results|] eqn:Hparse; [|assumption].
  cbn [fst]. apply save_results_wf; [assumption|].
  assert (Hres : wf_results results).
  { unfold parse in Hparse. destruct parser as [[f|]|].
    - exact (Hp filename results Hparse).
    - discriminate.
    - exact (default_parser_wf E filename results HE Hparse). }
  exact (proj2 Hres).
Qed.

Lemma filter_loop_wf (body : value -> result value) (filenames : list label)
  (wc : dict label value) :
  (forall v v', body v = Ok v' -> wf_value v') ->
  wf_inner wc -> wf_inner (fst (filter_loop body filenames wc)).
Proof.
  intros Hbody. revert wc.
  induction filenames as [|f rest IH]; intros wc Hwc; simpl; [assumption|].
  destruct (get f wc) as [v|]; [|assumption].
  destruct (body v) as [v'|] eqn:Hv; [|assumption].
  apply IH. apply wf_inner_set; [assumption|]. exact (Hbody v v' Hv).
Qed.

Lemma get_wordcount_wf (E : Env) (data : registry)
  (word_list : option (list string)) (k : Z) :
  wf_registry data -> wf_registry (fst (get_wordcount E data word_list k)).
Proof.
  intros Hwf. unfold get_wordcount.
  destruct (check_get_wordcount (exception E) word_list k); [|assumption].
  pose proof (wf_registry_vivify data "wordcount" Hwf) as H1.
  pose proof (wf_registry_getitem data "wordcount" Hwf) as H2.
  destruct (getitem_default "wordcount" data) as [data1 wc]. cbn [fst snd] in *.
  pose proof (filter_loop_wf (wordcount_body word_list k) (keys wc) wc
                (wordcount_body_wf word_list k) H2) as H3.
  destruct (filter_loop _ _ wc) as [wc' r]. cbn [fst] in *.
  now apply wf_registry_set.
Qed.

(** X15.  Every registry a session reaches is well-formed (no statistic, no
    label and no word is held twice), when the parsers and the scorer
    return Python dictionaries. *)
Theorem reachable_wf (E : Env) (data : registry) :
  wf_env E -> reachable E data -> wf_registry data.
Proof.
  intros HE. induction 1.
  - split; [constructor | intros ? ? []].
  - now apply load_text_wf.
  - now apply get_wordcount_wf.
  - rewrite wordcount_sankey_registry. now apply get_wordcount_wf.
  - rewrite second_viz_registry. now apply wf_registry_vivify.
  - unfold third_viz.
    pose proof (wf_registry_vivify data "sentiment" IHreachable) as H1.
    destruct (getitem_default "sentiment" data). exact H1.
Qed.

(* ================================================================= *)
(** * Further properties of the methods *)

(** ** The order of the counted words *)

Lemma filter_filter_and {B : Type} (p q : B -> bool) (l : list B) :
  filter p (filter q l) = filter (fun x => q x && p x) l.
Proof.
  induction l as [|x l IH]; simpl; [reflexivity|].
  destruct (q x); simpl; [|exact IH]. destruct (p x); now rewrite IH.
Qed.

Lemma filter_all {B : Type} (p : B -> bool) (l : list B) :
  (forall x, p x = true) -> filter p l = l.
Proof.
  intros Hp. induction l as [|x l IH]; simpl; [reflexivity|].
  now rewrite Hp, IH.
Qed.

Lemma mem_keys_get (w : string) (d : dict string Z) :
  Str.mem w (keys d) = match get w d with Some _ => true | None => false end.
Proof.
  destruct (get w d) eqn:E.
  - apply mem_In. destruct (in_dec string_dec w (keys d)) as [Hin|Hout];
      [assumption|]. apply get_None_iff in Hout. congruence.
  - apply get_None_iff in E. destruct (Str.mem w (keys d)) eqn:M;
      [|reflexivity]. apply mem_In in M. contradiction.
Qed.

Lemma count_word_keys_eq (d : dict string Z) (w : string) :
  keys (count_word d w) =
  if Str.mem w (keys d) then keys d else keys d ++ [w].
Proof.
  rewrite mem_keys_get. unfold count_word.
  destruct (get w d) eqn:E; rewrite keys_set, E; reflexivity.
Qed.

Lemma mem_app_one (y w : string) (l : list string) :
  Str.mem y (l ++ [w]) = Str.mem y l || String.eqb y w.
Proof. unfold Str.mem. rewrite existsb_app. simpl. now rewrite orb_false_r. Qed.

Lemma count_loop_keys (words : list string) (d : dict string Z) :
  keys (fold_left count_word words d) =
  keys d ++ filter (fun w => negb (Str.mem w (keys d)))
                   (first_occurrences words).
Proof.
  revert d. induction words as [|w ws IH]; intros d;
    cbn [fold_left first_occurrences filter].
  - now rewrite app_nil_r.
  - rewrite IH, count_word_keys_eq.
    destruct (Str.mem w (keys d)) eqn:M; cbn [negb].
    + f_equal. rewrite filter_filter_and. apply filter_ext. intros y.
      destruct (String.eqb_spec y w) as [->|Hne]; cbn [negb andb];
        [now rewrite M | reflexivity].
    + rewrite <- app_assoc. cbn [app]. do 2 f_equal.
      rewrite filter_filter_and. apply filter_ext. intros y.
      rewrite mem_app_one.
      destruct (String.eqb y w), (Str.mem y (keys d)); reflexivity.
Qed.

(** X1.  The keys of [count c] are the distinct tokens of [c] in the order
    of their first occurrence, and every stored count is at least one and
    belongs to a token of the text. *)
Theorem count_first_occurrence (c : string) :
  keys (count c) = first_occurrences (Str.split c) /\
  forall w n, get w (count c) = Some n ->
    (1 <= n)%Z /\ In w (Str.split c).
Proof.
  unfold count. split.
  - rewrite count_loop_keys. cbn [keys map app]. now apply filter_all.
  - intros w n. rewrite count_loop_get. cbn [get].
    destruct (Nat.eqb_spec (occurrences w (Str.split c)) 0) as [|Hpos];
      [discriminate|].
    intros H. inversion H; subst. split; [lia|].
    unfold occurrences in Hpos.
    apply (count_occ_In string_dec). lia.
Qed.

(** ** Registration with the default parser *)

(** X2.  A registration with the default parser that passes both checks and
    reads [content] stores, under its label, the counts of the cleaned text,
    the scores of the cleaned text and the cleaned text itself; the counts
    add up to the number of tokens of the stored text, and no other label
    changes. *)
Theorem load_text_default (E : Env) (data : registry) (f : string)
  (lbl : option string) (content : string) :
  check_load_text (exception E) (Some f) lbl None = Ok tt ->
  check_default_parser (exception E) (Some f) = Ok tt ->
  open_read E f = Ok content ->
  exists data',
    load_text E data (Some f) lbl None = (data', Ok tt) /\
    stat data' "wordcount" (effective_label (Some f) lbl)
    = Some (VCounts (count (preprocess E content))) /\
    stat data' "sentiment" (effective_label (Some f) lbl)
    = Some (VScores (polarity_scores E (preprocess E content))) /\
    stat data' "raw_text" (effective_label (Some f) lbl)
    = Some (VText (preprocess E content)) /\
    sum_values (count (preprocess E content))
    = Z.of_nat (List.length (Str.split (preprocess E content))) /\
    forall s l, l <> effective_label (Some f) lbl ->
      stat data' s l = stat data s l.
Proof.
  intros Hcheck Hdefault Hopen.
  set (raw := preprocess E content).
  set (results := [("wordcount", VCounts (count raw));
                   ("sentiment", VScores (polarity_scores E raw));
                   ("raw_text", VText raw)]).
  assert (Hparse : parse E (Some f) None = Ok results).
  { unfold parse, _default_parser, bind. now rewrite Hdefault, Hopen. }
  assert (Hnd : NoDup (keys results)) by (apply distinctb_sound; reflexivity).
  exists (_save_results data (effective_label (Some f) lbl) results).
  split; [now apply load_text_unfold|].
  repeat split.
  - rewrite save_results_stat by assumption. now rewrite key_eqb_refl.
  - rewrite save_results_stat by assumption. now rewrite key_eqb_refl.
  - rewrite save_results_stat by assumption. now rewrite key_eqb_refl.
  - unfold count. now rewrite count_loop_sum.
  - intros s l Hl. rewrite save_results_stat by assumption.
    now rewrite (key_eqb_neq _ _ Hl).
Qed.

Lemma load_text_default_witness :
  exists data',
    load_text example_env init (Some "c.txt") None None = (data', Ok tt) /\
    stat data' "wordcount" (Some "c.txt")
    = Some (VCounts [("red", 3); ("green", 2); ("blue", 1); ("yellow", 1);
                     ("pink", 1); ("grey", 1)]%Z) /\
    stat data' "raw_text" (Some "c.txt")
    = Some (VText "red green red blue green red yellow pink grey").
Proof.
  destruct (load_text_default example_env init "c.txt" None
              "Red, green, red; blue green red: yellow pink grey."
              eq_refl eq_refl eq_refl)
    as (data' & Hrun & Hcount & _ & Htext & _).
  exists data'. split; [exact Hrun|]. split; [exact Hcount | exact Htext].
Defined.

Lemma load_text_failure_witness :
  snd (load_text example_env example_registry (Some "missing.txt") None None)
  = Raise FileNotFoundError /\
  fst (load_text example_env example_registry (Some "missing.txt") None None)
  = example_registry.
Proof.
  split; [reflexivity|].
  apply (load_text_failure example_env example_registry (Some "missing.txt")
           None None FileNotFoundError).
  reflexivity.
Defined.

(** ** Registering twice, and in either order *)

Section GetSame.
Context {K V : Type} {HK : Hashable K}.

Lemma set_same (k : K) (v : V) (d : dict K V) :
  get k d = Some v -> set k v d = d.
Proof.
  induction d as [|[k0 v0] d IH]; simpl; [discriminate|].
  destruct (key_eqb_spec k k0) as [->|Hne]; intros H.
  - congruence.
  - now rewrite IH.
Qed.

End GetSame.

Lemma save_item_same (lbl : label) (data : registry) (k : string) (v : value) :
  stat data k lbl = Some v -> save_item lbl data (k, v) = data.
Proof.
  unfold stat, save_item, getitem_default. cbn [fst snd].
  destruct (get k data) as [inner|] eqn:E; [|discriminate].
  intros Hget. rewrite (set_same lbl v inner Hget). now apply set_same.
Qed.

Lemma save_results_same (lbl : label) (results : dict string value)
  (data : registry) :
  (forall k v, In (k, v) results -> stat data k lbl = Some v) ->
  _save_results data lbl results = data.
Proof.
  unfold _save_results, items.
  induction results as [|[k v] results IH]; intros Hall; simpl; [reflexivity|].
  rewrite save_item_same by (apply Hall; now left).
  apply IH. intros k' v' Hin. apply Hall. now right.
Qed.

(** X4.  Registering the same file again, with the same label and parser,
    leaves the registry exactly as the first registration left it. *)
Theorem load_text_idempotent (E : Env) (data : registry)
  (filename lbl : option string) (parser : option parser_arg)
  (results : dict string value) :
  check_load_text (exception E) filename lbl parser = Ok tt ->
  parse E filename parser = Ok results ->
  NoDup (keys results) ->
  load_text E (fst (load_text E data filename lbl parser)) filename lbl parser
  = (fst (load_text E data filename lbl parser), Ok tt).
Proof.
  intros Hcheck Hparse Hnd.
  rewrite (load_text_unfold E data filename lbl parser results Hcheck Hparse).
  cbn [fst].
  rewrite (load_text_unfold E _ filename lbl parser results Hcheck Hparse).
  f_equal. apply save_results_same. intros k v Hin.
  rewrite save_results_stat by assumption. rewrite key_eqb_refl.
  now rewrite (In_get_Some k v results Hnd Hin).
Qed.

Lemma load_text_idempotent_witness :
  load_text example_env example_registry (Some "c.txt") None None
  = (example_registry, Ok tt).
Proof.
  apply (load_text_idempotent example_env
           (fst (load_text example_env
                   (fst (load_text example_env init (Some "a.txt") None None))
                   (Some "b.txt") None None))
           (Some "c.txt") None None
           [("wordcount",
             VCounts [("red", 3); ("green", 2); ("blue", 1); ("yellow", 1);
                      ("pink", 1); ("grey", 1)]%Z);
            ("sentiment",
             VScores [("neg", 0); ("neu", 1); ("pos", 0); ("compound", 0)]%Q);
            ("raw_text",
             VText "red green red blue green red yellow pink grey")]).
  - reflexivity.
  - reflexivity.
  - apply distinctb_sound. reflexivity.
Defined.

(** X5.  Two registrations under different labels can be made in either
    order: every statistic of every label is the same afterwards. *)
Theorem load_text_commutes (E : Env) (data : registry)
  (filename1 lbl1 filename2 lbl2 : option string)
  (parser1 parser2 : option parser_arg) (results1 results2 : dict string value) :
  check_load_text (exception E) filename1 lbl1 parser1 = Ok tt ->
  parse E filename1 parser1 = Ok results1 ->
  check_load_text (exception E) filename2 lbl2 parser2 = Ok tt ->
  parse E filename2 parser2 = Ok results2 ->
  NoDup (keys results1) ->
  NoDup (keys results2) ->
  effective_label filename1 lbl1 <> effective_label filename2 lbl2 ->
  forall s l,
    stat (fst (load_text E (fst (load_text E data filename1 lbl1 parser1))
                 filename2 lbl2 parser2)) s l
    = stat (fst (load_text E (fst (load_text E data filename2 lbl2 parser2))
                   filename1 lbl1 parser1)) s l.
Proof.
  intros Hc1 Hp1 Hc2 Hp2 Hnd1 Hnd2 Hne s l.
  rewrite (load_text_unfold E data filename1 lbl1 parser1 results1 Hc1 Hp1).
  rewrite (load_text_unfold E data filename2 lbl2 parser2 results2 Hc2 Hp2).
  cbn [fst].
  rewrite (load_text_unfold E _ filename2 lbl2 parser2 results2 Hc2 Hp2).
  rewrite (load_text_unfold E _ filename1 lbl1 parser1 results1 Hc1 Hp1).
  cbn [fst]. rewrite !save_results_stat by assumption.
  destruct (key_eqb_spec l (effective_label filename1 lbl1)) as [H1|H1];
    destruct (key_eqb_spec l (effective_label filename2 lbl2)) as [H2|H2];
    try reflexivity.
  congruence.
Qed.

Lemma load_text_commutes_witness :
  stat (fst (load_text example_env
               (fst (load_text example_env init (Some "a.txt") None None))
               (Some "b.txt") None None)) "wordcount" (Some "a.txt")
  = stat (fst (load_text example_env
                 (fst (load_text example_env init (Some "b.txt") None None))
                 (Some "a.txt") None None)) "wordcount" (Some "a.txt").
Proof.
  apply (load_text_commutes example_env init
           (Some "a.txt") None (Some "b.txt") None None None
           [("wordcount", VCounts [("cat", 1); ("sat", 1); ("mat", 1)]%Z);
            ("sentiment",
             VScores [("neg", 0); ("neu", 1); ("pos", 0); ("compound", 0)]%Q);
            ("raw_text", VText "cat sat mat")]
           [("wordcount", VCounts [("dog", 1); ("ran", 1); ("park", 1)]%Z);
            ("sentiment",
             VScores [("neg", 0); ("neu", 1); ("pos", 0); ("compound", 0)]%Q);
            ("raw_text", VText "dog ran park")]);
    try reflexivity; try (apply distinctb_sound; reflexivity).
  discriminate.
Defined.

(** ** The loop of [get_wordcount], entry by entry *)

Section AppFacts.
Context {K V : Type} {HK : Hashable K}.

Lemma get_app_absent (k : K) (d1 d2 : dict K V) :
  ~ In k (keys d1) -> get k (d1 ++ d2) = get k d2.
Proof.
  induction d1 as [|[k0 v0] d1 IH]; simpl; [reflexivity|].
  intros Hout. rewrite key_eqb_neq by (intros ->; apply Hout; now left).
  apply IH. intros Hin. apply Hout. now right.
Qed.

Lemma set_app_absent (k : K) (v : V) (d1 d2 : dict K V) :
  ~ In k (keys d1) -> set k v (d1 ++ d2) = d1 ++ set k v d2.
Proof.
  induction d1 as [|[k0 v0] d1 IH]; simpl; [reflexivity|].
  intros Hout. rewrite key_eqb_neq by (intros ->; apply Hout; now left).
  rewrite IH; [reflexivity|]. intros Hin. apply Hout. now right.
Qed.

End AppFacts.

Lemma keys_map_values (f : value -> value) (d : dict label value) :
  keys (map_values f d) = keys d.
Proof. unfold keys, map_values. rewrite map_map. reflexivity. Qed.

Lemma filter_loop_prefix (body : value -> result value)
  (pre done rest : dict label value) (filenames : list label) :
  NoDup (keys (done ++ pre)) ->
  (forall l v, In (l, v) pre -> exists v', body v = Ok v') ->
  filter_loop body (keys pre ++ filenames) (done ++ pre ++ rest)
  = filter_loop body filenames
      ((done ++ map_values (body_value body) pre) ++ rest).
Proof.
  revert done. induction pre as [|[l v] pre IH]; intros done Hnd Hok.
  - simpl. now rewrite app_nil_r.
  - assert (Hout : ~ In l (keys done)).
    { unfold keys in *. rewrite map_app in Hnd. cbn [map fst] in Hnd.
      apply NoDup_remove_2 in Hnd. intros Hin. apply Hnd.
      apply in_or_app. now left. }
    destruct (Hok l v (or_introl eq_refl)) as [v' Hv'].
    cbn [keys map fst app filter_loop].
    rewrite (get_app_absent l done _ Hout). cbn [app get].
    rewrite key_eqb_refl, Hv'.
    rewrite (set_app_absent l v' done _ Hout). cbn [app set].
    rewrite key_eqb_refl.
    change (done ++ (l, v') :: pre ++ rest)
      with (done ++ [(l, v')] ++ pre ++ rest).
    rewrite app_assoc.
    change (map fst pre) with (keys pre).
    rewrite IH.
    + unfold body_value at 2. cbn [map_values map fst snd]. rewrite Hv'.
      now rewrite <- !app_assoc.
    + rewrite <- app_assoc. cbn [app]. unfold keys in *.
      rewrite map_app in *. exact Hnd.
    + intros l0 v0 Hin. apply (Hok l0 v0). now right.
Qed.

(** When every value can be filtered, the loop replaces each of them. *)
Lemma filter_loop_all (body : value -> result value) (wc : dict label value) :
  NoDup (keys wc) ->
  (forall l v, In (l, v) wc -> exists v', body v = Ok v') ->
  filter_loop body (keys wc) wc = (map_values (body_value body) wc, Ok tt).
Proof.
  intros Hnd Hok.
  pose proof (filter_loop_prefix body wc [] [] [] Hnd Hok) as H.
  rewrite !app_nil_r in H. cbn [app filter_loop] in H. exact H.
Qed.

(** When a value cannot be filtered, the loop stops there: the entries
    before it are replaced, the others are not. *)
Lemma filter_loop_stops (body : value -> result value)
  (pre post : dict label value) (l : label) (v : value) (e : exn) :
  NoDup (keys (pre ++ (l, v) :: post)) ->
  (forall l0 v0, In (l0, v0) pre -> exists v', body v0 = Ok v') ->
  body v = Raise e ->
  filter_loop body (keys (pre ++ (l, v) :: post)) (pre ++ (l, v) :: post)
  = (map_values (body_value body) pre ++ (l, v) :: post, Raise e).
Proof.
  intros Hnd Hok Hv.
  assert (Hpre : NoDup (keys pre)).
  { unfold keys in *. rewrite map_app in Hnd.
    now apply NoDup_app_remove_r in Hnd. }
  assert (Hout : ~ In l (keys pre)).
  { unfold keys in *. rewrite map_app in Hnd. cbn [map fst] in Hnd.
    apply NoDup_remove_2 in Hnd. intros Hin. apply Hnd.
    apply in_or_app. now left. }
  unfold keys at 1. rewrite map_app. cbn [map fst].
  change (map fst pre) with (keys pre).
  pose proof (filter_loop_prefix body pre [] ((l, v) :: post)
                (l :: map fst post) Hpre Hok) as H.
  cbn [app] in H. rewrite H. cbn [filter_loop].
  rewrite get_app_absent by now rewrite keys_map_values.
  cbn [get]. now rewrite key_eqb_refl, Hv.
Qed.

Lemma wordcount_of_set (wc : dict label value) (data : registry) :
  wordcount_of (set "wordcount" wc data) = wc.
Proof.
  unfold wordcount_of, getitem_default. now rewrite get_set_eq.
Qed.

Lemma wordcount_body_mapping (word_list : option (list string)) (k : Z)
  (v : value) :
  is_text v = false -> exists v', wordcount_body word_list k v = Ok v'.
Proof.
  unfold wordcount_body, filter_value.
  destruct word_list, v; simpl; intros H; try discriminate; eauto.
Qed.

Lemma wordcount_body_text (word_list : option (list string)) (k : Z)
  (t : string) :
  wordcount_body word_list k (VText t) = Raise AttributeError.
Proof. unfold wordcount_body. now destruct word_list. Qed.

(** X8.  When a label's value under ["wordcount"] is a text, [get_wordcount]
    raises [AttributeError] at that label and the registry stays partly
    filtered: the mappings of the labels before it are replaced, the text
    and the labels after it are as they were. *)
Theorem get_wordcount_stops_at_text (E : Env) (data : registry)
  (word_list : option (list string)) (k : Z)
  (pre post : dict label value) (lbl : label) (t : string) :
  check_get_wordcount (exception E) word_list k = Ok tt ->
  wordcount_of data = pre ++ (lbl, VText t) :: post ->
  NoDup (keys (wordcount_of data)) ->
  forallb (fun lv => negb (is_text (snd lv))) pre = true ->
  get_wordcount E data word_list k
  = (set "wordcount"
       (map_values (body_value (wordcount_body word_list k)) pre
        ++ (lbl, VText t) :: post) data,
     Raise AttributeError).
Proof.
  intros Hcheck Hwc Hnd Hpre.
  rewrite (get_wordcount_unfold E data word_list k Hcheck). cbv zeta.
  rewrite Hwc in *.
  rewrite (filter_loop_stops (wordcount_body word_list k) pre post lbl
             (VText t) AttributeError Hnd).
  - reflexivity.
  - intros l0 v0 Hin. apply wordcount_body_mapping.
    rewrite forallb_forall in Hpre. specialize (Hpre (l0, v0) Hin).
    cbn [snd] in Hpre. now apply negb_true_iff in Hpre.
  - apply wordcount_body_text.
Qed.

Lemma get_wordcount_stops_at_text_witness :
  get_wordcount example_env mixed_registry None 2
  = (set "wordcount"
       [(Some "c.txt", VCounts [("red", 3); ("green", 2)]%Z);
        (Some "d.txt", VText "not a mapping")] mixed_registry,
     Raise AttributeError).
Proof.
  apply (get_wordcount_stops_at_text example_env mixed_registry None 2
           [(Some "c.txt",
             VCounts [("red", 3); ("green", 2); ("blue", 1); ("yellow", 1);
                      ("pink", 1); ("grey", 1)]%Z)]
           [] (Some "d.txt") "not a mapping").
  - reflexivity.
  - reflexivity.
  - apply distinctb_sound. reflexivity.
  - reflexivity.
Defined.

(** ** Labels are never lost *)

Lemma filter_loop_keys (body : value -> result value) (filenames : list label)
  (wc : dict label value) :
  keys (fst (filter_loop body filenames wc)) = keys wc.
Proof.
  revert wc. induction filenames as [|f rest IH]; intros wc; simpl;
    [reflexivity|].
  destruct (get f wc) as [v|] eqn:Hget; [|reflexivity].
  destruct (body v) as [v'|]; [|reflexivity].
  rewrite IH. apply keys_set_present. congruence.
Qed.

Lemma get_wordcount_labels (E : Env) (data : registry)
  (word_list : option (list string)) (k : Z) :
  keys (wordcount_of (fst (get_wordcount E data word_list k)))
  = keys (wordcount_of data).
Proof.
  unfold get_wordcount.
  destruct (check_get_wordcount (exception E) word_list k); [|reflexivity].
  unfold wordcount_of at 2.
  destruct (getitem_default "wordcount" data) as [data1 wc]. cbn [snd].
  pose proof (filter_loop_keys (wordcount_body word_list k) (keys wc) wc) as H.
  destruct (filter_loop _ _ wc) as [wc' r]. cbn [fst] in *.
  now rewrite wordcount_of_set.
Qed.

(** X7.  Whatever its arguments and its outcome, [get_wordcount] leaves the
    labels registered under ["wordcount"] as they were, in the same order:
    it adds none and removes none. *)
Theorem get_wordcount_keeps_labels (E : Env) (data : registry)
  (word_list : option (list string)) (k : Z) :
  keys (wordcount_of (fst (get_wordcount E data word_list k)))
  = keys (wordcount_of data).
Proof. apply get_wordcount_labels. Qed.

Lemma save_item_keeps (lbl l : label) (data : registry) (kv : string * value)
  (s : string) :
  stat data s l <> None -> stat (save_item lbl data kv) s l <> None.
Proof.
  intros H. rewrite save_item_stat.
  destruct (String.eqb s (fst kv) && key_eqb l lbl); [discriminate|exact H].
Qed.

Lemma save_results_keeps (lbl l : label) (results : dict string value)
  (data : registry) (s : string) :
  stat data s l <> None -> stat (_save_results data lbl results) s l <> None.
Proof.
  unfold _save_results, items. revert data.
  induction results as [|kv results IH]; intros data H; simpl; [exact H|].
  apply IH. now apply save_item_keeps.
Qed.

Lemma load_text_keeps (E : Env) (data : registry) (filename lbl : option string)
  (parser : option parser_arg) (s : string) (l : label) :
  stat data s l <> None ->
  stat (fst (load_text E data filename lbl parser)) s l <> None.
Proof.
  intros H. unfold load_text.
  destruct (check_load_text (exception E) filename lbl parser); [|exact H].
  destruct (parse E filename parser); [|exact H].
  cbn [fst]. now apply save_results_keeps.
Qed.

Lemma get_wordcount_keeps (E : Env) (data : registry)
  (word_list : option (list string)) (k : Z) (s : string) (l : label) :
  stat data s l <> None ->
  stat (fst (get_wordcount E data word_list k)) s l <> None.
Proof.
  destruct (String.eqb_spec s "wordcount") as [->|Hne].
  - rewrite !stat_getitem_default.
    change (snd (getitem_default "wordcount" ?d)) with (wordcount_of d).
    intros H Hnone. apply H. apply get_None_iff. apply get_None_iff in Hnone.
    now rewrite get_wordcount_labels in Hnone.
  - unfold stat. now rewrite get_wordcount_other_keys.
Qed.

(** X6.  Nothing is ever unregistered: a statistic that a label has keeps
    some value through every later call of [load_text], [get_wordcount] and
    the three visualizations, whether the calls succeed or fail. *)
Theorem registered_stays_registered (E : Env) (data data' : registry)
  (s : string) (l : label) :
  evolves E data data' ->
  stat data s l <> None -> stat data' s l <> None.
Proof.
  intros Hev H. induction Hev.
  - exact H.
  - now apply load_text_keeps.
  - now apply get_wordcount_keeps.
  - rewrite wordcount_sankey_registry. now apply get_wordcount_keeps.
  - now rewrite second_viz_stat.
  - now rewrite third_viz_stat.
Qed.

Lemma registered_stays_registered_witness :
  stat (fst (get_wordcount example_env
               (fst (load_text example_env example_registry (Some "two.txt")
                       (Some "a.txt") (Some second_parser)))
               (Some []) 0))
       "raw_text" (Some "a.txt") <> None.
Proof.
  apply (registered_stays_registered example_env example_registry).
  - apply evolves_get_wordcount. apply evolves_load_text. apply evolves_refl.
  - discriminate.
Defined.

(** ** [get_wordcount], in closed form *)

Lemma get_wordcount_all (E : Env) (data : registry)
  (word_list : option (list string)) (k : Z) :
  check_get_wordcount (exception E) word_list k = Ok tt ->
  NoDup (keys (wordcount_of data)) ->
  (forall l v, In (l, v) (wordcount_of data) -> is_text v = false) ->
  get_wordcount E data word_list k
  = (set "wordcount"
       (map_values (body_value (wordcount_body word_list k))
                   (wordcount_of data)) data,
     Ok tt).
Proof.
  intros Hcheck Hnd Hshape.
  rewrite (get_wordcount_unfold E data word_list k Hcheck). cbv zeta.
  rewrite filter_loop_all; [reflexivity|assumption|].
  intros l v Hin. apply wordcount_body_mapping. now apply (Hshape l v).
Qed.

Lemma counts_shaped_In (data : registry) (l : label) (v : value) :
  wf_registry data -> counts_shaped data ->
  In (l, v) (wordcount_of data) ->
  exists d, v = VCounts d /\ NoDup (keys d).
Proof.
  intros Hwf Hshape Hin.
  pose proof (wf_registry_inner data "wordcount" Hwf) as Hnd.
  assert (Hstat : stat data "wordcount" l = Some v).
  { rewrite stat_getitem_default. now apply In_get_Some. }
  destruct (Hshape l v Hstat) as [d ->]. exists d. split; [reflexivity|].
  exact (wf_registry_stat data "wordcount" l _ Hwf Hstat).
Qed.

Lemma map_values_twice (f g h : value -> value) (wc : dict label value) :
  (forall l v, In (l, v) wc -> g (f v) = h v) ->
  map_values g (map_values f wc) = map_values h wc.
Proof.
  intros H. unfold map_values. rewrite map_map. apply map_ext_in.
  intros [l v] Hin. cbn [fst snd]. now rewrite (H l v Hin).
Qed.

Lemma In_map_values (f : value -> value) (wc : dict label value)
  (l : label) (v : value) :
  In (l, v) (map_values f wc) -> exists v0, In (l, v0) wc /\ v = f v0.
Proof.
  unfold map_values. rewrite in_map_iff. intros ([l0 v0] & Heq & Hin).
  inversion Heq; subst. now exists v0.
Qed.

(** Two filters in a row, as one pass over the registered values. *)
Lemma get_wordcount_twice (E : Env) (data : registry)
  (wl1 wl2 wl3 : option (list string)) (k1 k2 k3 : Z) :
  check_get_wordcount (exception E) wl1 k1 = Ok tt ->
  check_get_wordcount (exception E) wl2 k2 = Ok tt ->
  check_get_wordcount (exception E) wl3 k3 = Ok tt ->
  wf_registry data -> counts_shaped data ->
  (forall d, NoDup (keys d) ->
     body_value (wordcount_body wl2 k2)
       (body_value (wordcount_body wl1 k1) (VCounts d))
     = body_value (wordcount_body wl3 k3) (VCounts d)) ->
  get_wordcount E (fst (get_wordcount E data wl1 k1)) wl2 k2
  = get_wordcount E data wl3 k3.
Proof.
  intros Hc1 Hc2 Hc3 Hwf Hshape Hbody.
  pose proof (wf_registry_inner data "wordcount" Hwf) as Hnd.
  change (snd (getitem_default "wordcount" data)) with (wordcount_of data)
    in Hnd.
  assert (Htext : forall l v, In (l, v) (wordcount_of data) ->
                              is_text v = false).
  { intros l v Hin.
    now destruct (counts_shaped_In data l v Hwf Hshape Hin) as (d & -> & _). }
  rewrite (get_wordcount_all E data wl1 k1 Hc1 Hnd Htext). cbn [fst].
  rewrite (get_wordcount_all E data wl3 k3 Hc3 Hnd Htext).
  rewrite get_wordcount_all; try assumption.
  - rewrite wordcount_of_set, set_set. f_equal. f_equal.
    apply map_values_twice. intros l v Hin.
    destruct (counts_shaped_In data l v Hwf Hshape Hin) as (d & -> & Hd).
    now apply Hbody.
  - now rewrite wordcount_of_set, keys_map_values.
  - rewrite wordcount_of_set. intros l v Hin.
    apply In_map_values in Hin. destruct Hin as (v0 & Hin & ->).
    destruct (counts_shaped_In data l v0 Hwf Hshape Hin) as (d & -> & _).
    unfold body_value, wordcount_body. now destruct wl1.
Qed.

(** ** Filtering twice *)

Lemma sorted_prefix {B : Type} (R : B -> B -> Prop) (l1 l2 : list B) :
  StronglySorted R (l1 ++ l2) -> StronglySorted R l1.
Proof.
  induction l1 as [|x l1 IH]; simpl; intros H; [constructor|].
  inversion H as [|? ? Hs Hall]; subst. constructor; [auto|].
  rewrite Forall_app in Hall. tauto.
Qed.

Lemma sorted_desc_fixed (l : list (string * Z)) :
  StronglySorted ge_count l -> sorted_desc Z.ltb l = l.
Proof.
  induction 1 as [|x l Hs IH Hall]; [reflexivity|].
  cbn [sorted_desc]. rewrite IH. destruct l as [|y l]; [reflexivity|].
  cbn [insert_desc]. inversion Hall as [|? ? Hy _]; subst.
  unfold ge_count in Hy. destruct (Z.ltb_spec (snd x) (snd y)); [lia|].
  reflexivity.
Qed.

Lemma firstn_sorted (n : nat) (d : dict string Z) :
  StronglySorted ge_count (firstn n (sorted_desc Z.ltb d)).
Proof.
  apply (sorted_prefix ge_count _ (skipn n (sorted_desc Z.ltb d))).
  rewrite firstn_skipn. apply sorted_desc_sorted.
Qed.

Lemma top_k_twice (k k' : Z) (d : dict string Z) :
  (0 < k)%Z -> (0 < k')%Z -> NoDup (keys d) ->
  top_k Z.ltb k' (top_k Z.ltb k d) = top_k Z.ltb (Z.min k k') d.
Proof.
  intros Hk Hk' Hnd.
  rewrite (top_k_firstn k d Hk Hnd).
  rewrite top_k_firstn;
    [|assumption | apply keys_firstn; now apply sorted_desc_keys].
  rewrite (top_k_firstn (Z.min k k') d) by (assumption || lia).
  rewrite sorted_desc_fixed by apply firstn_sorted.
  rewrite firstn_firstn. f_equal. lia.
Qed.

(** X9.  Two top-k filters in a row are one: keeping the [k] largest counts
    and then the [k'] largest leaves the registry that keeping the
    [min k k'] largest does. *)
Theorem get_wordcount_top_k_twice (E : Env) (data : registry) (k k' : Z) :
  check_get_wordcount (exception E) None k = Ok tt ->
  check_get_wordcount (exception E) None k' = Ok tt ->
  check_get_wordcount (exception E) None (Z.min k k') = Ok tt ->
  (0 < k)%Z -> (0 < k')%Z ->
  wf_registry data -> counts_shaped data ->
  get_wordcount E (fst (get_wordcount E data None k)) None k'
  = get_wordcount E data None (Z.min k k').
Proof.
  intros Hc1 Hc2 Hc3 Hk Hk' Hwf Hshape.
  apply get_wordcount_twice; try assumption.
  intros d Hd. unfold body_value, wordcount_body. cbn [filter_value].
  now rewrite top_k_twice.
Qed.

Lemma get_wordcount_top_k_twice_witness :
  get_wordcount example_env
    (fst (get_wordcount example_env example_registry None 4)) None 2
  = get_wordcount example_env example_registry None (Z.min 4 2).
Proof.
  apply get_wordcount_top_k_twice; try reflexivity.
  - apply wf_registryb_sound. reflexivity.
  - apply counts_shapedb_sound. reflexivity.
Defined.

Lemma mem_filter (p : string -> bool) (w : string) (l : list string) :
  Str.mem w (filter p l) = Str.mem w l && p w.
Proof.
  unfold Str.mem. induction l as [|x l IH]; simpl; [reflexivity|].
  destruct (p x) eqn:Hp; simpl; rewrite IH;
    destruct (String.eqb_spec w x) as [->|Hne]; simpl;
    rewrite ?Hp, ?andb_false_r; reflexivity.
Qed.

Lemma select_words_twice {A : Type} (W1 W2 : list string) (d : dict string A) :
  NoDup (keys d) ->
  select_words W2 (select_words W1 d)
  = select_words (filter (fun w => Str.mem w W2) W1) d.
Proof.
  intros Hnd.
  rewrite (select_words_filter W2) by apply select_words_keys.
  rewrite !select_words_filter by assumption.
  rewrite filter_filter_and. apply filter_ext. intros kv.
  now rewrite mem_filter.
Qed.

(** X11.  Two word-list filters in a row are one filter by the words the
    two lists share, whatever the values of [k]; in particular filtering
    again by the same list changes nothing. *)
Theorem get_wordcount_word_list_twice (E : Env) (data : registry)
  (W1 W2 : list string) (k1 k2 k3 : Z) :
  check_get_wordcount (exception E) (Some W1) k1 = Ok tt ->
  check_get_wordcount (exception E) (Some W2) k2 = Ok tt ->
  check_get_wordcount (exception E)
    (Some (filter (fun w => Str.mem w W2) W1)) k3 = Ok tt ->
  wf_registry data -> counts_shaped data ->
  get_wordcount E (fst (get_wordcount E data (Some W1) k1)) (Some W2) k2
  = get_wordcount E data (Some (filter (fun w => Str.mem w W2) W1)) k3.
Proof.
  intros Hc1 Hc2 Hc3 Hwf Hshape.
  apply get_wordcount_twice; try assumption.
  intros d Hd. unfold body_value, wordcount_body. cbn [filter_value].
  now rewrite select_words_twice.
Qed.

Lemma get_wordcount_word_list_twice_witness :
  get_wordcount example_env
    (fst (get_wordcount example_env example_registry
            (Some ["cat"; "red"; "dog"]) 5))
    (Some ["red"; "dog"; "owl"]) 5
  = get_wordcount example_env example_registry (Some ["red"; "dog"]) 5.
Proof.
  apply (get_wordcount_word_list_twice example_env example_registry
           ["cat"; "red"; "dog"] ["red"; "dog"; "owl"] 5 5 5);
    try reflexivity.
  - apply wf_registryb_sound. reflexivity.
  - apply counts_shapedb_sound. reflexivity.
Defined.

(** ** Any [k] *)

Lemma firstn_min {B : Type} (n : nat) (l : list B) :
  firstn (Nat.min n (List.length l)) l = firstn n l.
Proof.
  destruct (Nat.le_gt_cases n (List.length l)) as [Hle|Hgt].
  - now rewrite Nat.min_l.
  - rewrite Nat.min_r by lia. rewrite firstn_all.
    symmetry. apply firstn_all2. lia.
Qed.

Lemma top_k_slice (k : Z) (d : dict string Z) :
  NoDup (keys d) ->
  top_k Z.ltb k d
  = firstn (slice_count k (List.length d)) (sorted_desc Z.ltb d).
Proof.
  intros Hnd. unfold top_k, slice_to, slice_count, items.
  rewrite (Permutation_length (sorted_desc_perm Z.ltb d)).
  rewrite <- (Permutation_length (sorted_desc_perm Z.ltb d)) at 1.
  destruct (0 <=? k)%Z.
  - rewrite of_items_distinct
      by (apply keys_firstn; now apply sorted_desc_keys).
    rewrite <- (Permutation_length (sorted_desc_perm Z.ltb d)).
    symmetry. apply firstn_min.
  - rewrite of_items_distinct
      by (apply keys_firstn; now apply sorted_desc_keys).
    now rewrite (Permutation_length (sorted_desc_perm Z.ltb d)).
Qed.

Lemma firstn_sorted_largest (n : nat) (d : dict string Z) :
  NoDup (keys d) -> keeps_largest n d (firstn n (sorted_desc Z.ltb d)).
Proof.
  intros Hnd. set (s := sorted_desc Z.ltb d).
  assert (Hperm : Permutation s d) by apply sorted_desc_perm.
  assert (Hin : forall e, In e (firstn n s) -> In e d).
  { intros e He. apply (Permutation_in _ Hperm).
    rewrite <- (firstn_skipn n s). apply in_or_app. now left. }
  split; [|split; [|split]].
  - rewrite length_firstn. now rewrite (Permutation_length Hperm).
  - apply keys_firstn. now apply sorted_desc_keys.
  - intros w c Hget. apply In_get_Some; [assumption|].
    apply Hin. now apply get_Some_In.
  - intros e e' He He' Hout.
    assert (Hrest : In e' (skipn n s)).
    { apply (Permutation_in _ (Permutation_sym Hperm)) in He'.
      rewrite <- (firstn_skipn n s) in He'. apply in_app_or in He'. tauto. }
    pose proof (sorted_desc_sorted d) as Hsorted. fold s in Hsorted.
    rewrite <- (firstn_skipn n s) in Hsorted.
    pose proof (sorted_app_ge _ _ _ Hsorted e e' He Hrest) as Hge.
    unfold ge_count in Hge.
    destruct (Z.eq_dec (snd e') (snd e)) as [Heq|Hne]; [right|left; lia].
    split; [assumption|].
    destruct (in_split _ _ He) as (a1 & a2 & Ha).
    destruct (in_split _ _ Hrest) as (b1 & b2 & Hb).
    apply (filter_precedes (has_count (snd e)) d
             (filter (has_count (snd e)) a1)
             (filter (has_count (snd e)) (a2 ++ b1))
             (filter (has_count (snd e)) b2)).
    rewrite <- (sorted_desc_stable (snd e) d). fold s.
    rewrite <- (firstn_skipn n s), Ha, Hb.
    rewrite <- !app_assoc.
    repeat (rewrite filter_app; cbn [filter app]).
    assert (He1 : has_count (snd e) e = true) by apply Z.eqb_refl.
    assert (He2 : has_count (snd e) e' = true)
      by (unfold has_count; rewrite Heq; apply Z.eqb_refl).
    rewrite He1, He2, <- !app_assoc. reflexivity.
Qed.

Lemma slice_count_le (k : Z) (len : nat) : (slice_count k len <= len)%nat.
Proof. unfold slice_count. destruct (0 <=? k)%Z; lia. Qed.

(** X10.  [get_wordcount] takes any integer [k], as the slice [[:k]] does:
    each label keeps the largest counts of its mapping, as many as [l[:k]]
    has elements: [min k len] for [k >= 0], so none for [k = 0], and all but
    the [-k] smallest for [k < 0]. *)
Theorem get_wordcount_any_k (E : Env) (data : registry) (k : Z) :
  check_get_wordcount (exception E) None k = Ok tt ->
  wf_registry data ->
  counts_shaped data ->
  exists data',
    get_wordcount E data None k = (data', Ok tt) /\
    forall lbl,
      match stat data "wordcount" lbl with
      | None => stat data' "wordcount" lbl = None
      | Some v =>
          exists old new,
            v = VCounts old /\
            stat data' "wordcount" lbl = Some (VCounts new) /\
            List.length new = slice_count k (List.length old) /\
            keeps_largest (slice_count k (List.length old)) old new
      end.
Proof.
  intros Hcheck Hwf Hshape.
  destruct (get_wordcount_success E data None k Hcheck Hwf)
    as (data' & Hrun & Hstat).
  { intros lbl v Hv. destruct (Hshape lbl v Hv) as [d ->]. now eexists. }
  exists data'. split; [exact Hrun|].
  intros lbl. rewrite Hstat.
  destruct (stat data "wordcount" lbl) as [v|] eqn:Hv; [|reflexivity].
  destruct (Hshape lbl v Hv) as [old ->].
  pose proof (wf_registry_stat data "wordcount" lbl _ Hwf Hv) as Hold.
  simpl in Hold.
  pose proof (firstn_sorted_largest (slice_count k (List.length old)) old Hold)
    as Htop.
  exists old, (top_k Z.ltb k old).
  split; [reflexivity|]. split; [reflexivity|].
  rewrite (top_k_slice k old Hold). split; [|exact Htop].
  destruct Htop as [Hlen _]. rewrite Hlen.
  pose proof (slice_count_le k (List.length old)). lia.
Qed.

Lemma get_wordcount_any_k_witness :
  exists data',
    get_wordcount example_env example_registry None (-2) = (data', Ok tt) /\
    forall lbl,
      match stat example_registry "wordcount" lbl with
      | None => stat data' "wordcount" lbl = None
      | Some v =>
          exists old new,
            v = VCounts old /\
            stat data' "wordcount" lbl = Some (VCounts new) /\
            List.length new = slice_count (-2) (List.length old) /\
            keeps_largest (slice_count (-2) (List.length old)) old new
      end.
Proof.
  apply get_wordcount_any_k.
  - reflexivity.
  - apply wf_registryb_sound. reflexivity.
  - apply counts_shapedb_sound. reflexivity.
Defined.

(** ** The rows of the flow diagram *)

Lemma row_count_app (lbl : label) (w : string) (r1 r2 : list (label * string)) :
  row_count lbl w (r1 ++ r2)
  = (row_count lbl w r1 + row_count lbl w r2)%nat.
Proof. unfold row_count. now rewrite filter_app, length_app. Qed.

Lemma filter_repeat {B : Type} (p : B -> bool) (x : B) (n : nat) :
  filter p (repeat x n) = if p x then repeat x n else [].
Proof.
  induction n as [|n IH]; simpl; [now destruct (p x)|].
  rewrite IH. now destruct (p x).
Qed.

Lemma row_count_repeat (lbl f : label) (w w' : string) (n : nat) :
  row_count lbl w (repeat (f, w') n)
  = if key_eqb f lbl && String.eqb w' w then n else 0%nat.
Proof.
  unfold row_count. rewrite filter_repeat. cbn [fst snd].
  destruct (key_eqb f lbl && String.eqb w' w); [apply repeat_length|reflexivity].
Qed.

Lemma row_count_mapping (lbl f : label) (w : string) (d : dict string Z) :
  NoDup (keys d) ->
  row_count lbl w
    (flat_map (fun kv => repeat (f, fst kv) (Z.to_nat (snd kv))) d)
  = if key_eqb f lbl then count_for w d else 0%nat.
Proof.
  unfold count_for. induction d as [|[w' c] d IH]; intros Hnd.
  - simpl. now destruct (option_eqb f lbl).
  - inversion Hnd as [|? ? Hout Hnd']; subst.
    cbn [flat_map fst snd get]. rewrite row_count_app, row_count_repeat.
    rewrite (IH Hnd').
    change (@key_eqb string string_hashable w w') with (String.eqb w w').
    rewrite (String.eqb_sym w' w).
    destruct (key_eqb f lbl); cbn [andb]; [|reflexivity].
    destruct (String.eqb_spec w w') as [->|Hne]; [|reflexivity].
    apply get_None_iff in Hout. rewrite Hout. lia.
Qed.

Lemma sankey_rows_counts (wc : dict label value) (filenames : list label) :
  NoDup filenames ->
  (forall l, In l filenames ->
     exists d, get l wc = Some (VCounts d) /\ NoDup (keys d)) ->
  exists rows,
    sankey_rows wc filenames = Ok rows /\
    forall lbl w,
      row_count lbl w rows =
      if existsb (key_eqb lbl) filenames then
        match get lbl wc with
        | Some (VCounts d) => count_for w d
        | _ => 0%nat
        end
      else 0%nat.
Proof.
  induction filenames as [|f rest IH]; intros Hnd Hok.
  - exists []. split; reflexivity.
  - inversion Hnd as [|? ? Hout Hnd']; subst.
    destruct (Hok f (or_introl eq_refl)) as (d & Hget & Hd).
    destruct (IH Hnd') as (more & Hmore & Hcount).
    { intros l Hl. apply Hok. now right. }
    exists (flat_map (fun kv => repeat (f, fst kv) (Z.to_nat (snd kv))) d
            ++ more).
    split.
    + cbn [sankey_rows]. rewrite Hget. cbn [sankey_rows_of bind items].
      now rewrite Hmore.
    + intros lbl w. rewrite row_count_app, (row_count_mapping lbl f w d Hd).
      rewrite Hcount. cbn [existsb].
      destruct (key_eqb_spec lbl f) as [->|Hne].
      * rewrite key_eqb_refl, Hget. cbn [orb].
        assert (Hno : existsb (key_eqb f) rest = false).
        { destruct (existsb (key_eqb f) rest) eqn:Hex; [|reflexivity].
          apply existsb_exists in Hex. destruct Hex as (x & Hin & Hx).
          destruct (key_eqb_spec f x); [subst; contradiction|discriminate]. }
        rewrite Hno. lia.
      * rewrite (key_eqb_neq f lbl) by congruence. reflexivity.
Qed.

(** X12.  When the filter succeeds, the data frame [wordcount_sankey] hands
    to the diagram has, for every label and word, as many rows
    (label, word) as the word's count in the label's filtered mapping, and
    none for a word or label that is not there. *)
Theorem wordcount_sankey_rows (E : Env) (data : registry)
  (word_list : option (list string)) (k : Z) :
  check_get_wordcount (exception E) word_list k = Ok tt ->
  wf_registry data ->
  counts_shaped data ->
  exists data' rows,
    wordcount_sankey E data word_list k = (data', Ok rows) /\
    forall lbl w,
      row_count lbl w rows =
      match stat data' "wordcount" lbl with
      | Some (VCounts d) => count_for w d
      | _ => 0%nat
      end.
Proof.
  intros Hcheck Hwf Hshape.
  pose proof (wf_registry_inner data "wordcount" Hwf) as Hnd.
  change (snd (getitem_default "wordcount" data)) with (wordcount_of data)
    in Hnd.
  assert (Htext : forall l v, In (l, v) (wordcount_of data) ->
                              is_text v = false).
  { intros l v Hin.
    now destruct (counts_shaped_In data l v Hwf Hshape Hin) as (d & -> & _). }
  set (wc' := map_values (body_value (wordcount_body word_list k))
                         (wordcount_of data)).
  assert (Hkeys : NoDup (keys wc')).
  { unfold wc'. now rewrite keys_map_values. }
  destruct (sankey_rows_counts wc' (keys wc') Hkeys) as (rows & Hrows & Hcount).
  { intros l Hl.
    destruct (get l wc') as [v|] eqn:Hget;
      [|apply get_None_iff in Hget; contradiction].
    apply get_Some_In in Hget. apply In_map_values in Hget.
    destruct Hget as (v0 & Hin & ->).
    destruct (counts_shaped_In data l v0 Hwf Hshape Hin) as (d & -> & _).
    destruct (wordcount_body_mapping word_list k (VCounts d) eq_refl)
      as [v' Hv'].
    pose proof (wordcount_body_wf word_list k _ _ Hv') as Hwfv.
    unfold body_value. rewrite Hv'.
    unfold wordcount_body, filter_value in Hv'.
    destruct word_list; inversion Hv'; subst; eexists; split;
      try reflexivity; exact Hwfv. }
  exists (set "wordcount" wc' data), rows. split.
  - unfold wordcount_sankey.
    rewrite (get_wordcount_all E data word_list k Hcheck Hnd Htext).
    fold wc'. unfold getitem_default. rewrite get_set_eq. now rewrite Hrows.
  - intros lbl w. rewrite Hcount, stat_set_same.
    destruct (existsb (key_eqb lbl) (keys wc')) eqn:Hex; [reflexivity|].
    assert (Hnone : get lbl wc' = None).
    { apply get_None_iff. intros Hin.
      assert (existsb (key_eqb lbl) (keys wc') = true); [|congruence].
      apply existsb_exists. exists lbl. split; [assumption|apply key_eqb_refl]. }
    now rewrite Hnone.
Qed.

Lemma wordcount_sankey_rows_witness :
  exists data' rows,
    wordcount_sankey example_env example_registry None 2 = (data', Ok rows) /\
    forall lbl w,
      row_count lbl w rows =
      match stat data' "wordcount" lbl with
      | Some (VCounts d) => count_for w d
      | _ => 0%nat
      end.
Proof.
  apply wordcount_sankey_rows.
  - reflexivity.
  - apply wf_registryb_sound. reflexivity.
  - apply counts_shapedb_sound. reflexivity.
Defined.

Lemma reachable_wf_witness : wf_registry example_registry.
Proof.
  apply (reachable_wf example_env).
  - intros content. apply distinctb_sound. reflexivity.
  - unfold example_registry.
    apply reach_load_text; [|exact I].
    apply reach_load_text; [|exact I].
    apply reach_load_text; [|exact I].
    apply reach_init.
Defined.

(** ** The panels and the bars *)

Lemma subplots_row_many (n : nat) :
  (2 <= n)%nat -> subplots_row n = Ok (AxesArray n).
Proof. destruct n as [|[|n]]; [lia|lia|reflexivity]. Qed.

Lemma draw_panels_ok (E : Env) (ncols : nat) (d : dict label value) (i : nat) :
  (i + List.length d <= ncols)%nat ->
  (forall lbl v, In (lbl, v) d -> wordcloud_generate E v = Ok tt) ->
  draw_panels E (AxesArray ncols) i (map fst d) (map snd d) = Ok d.
Proof.
  revert i. induction d as [|[lbl v] d IH]; intros i Hlen Hok; [reflexivity|].
  cbn [map fst snd draw_panels axes_getitem List.length] in *.
  destruct (Nat.ltb_spec i ncols) as [_|Hge]; [|lia]. cbn [bind].
  rewrite (Hok lbl v (or_introl eq_refl)). cbn [bind].
  rewrite IH; [reflexivity|lia|].
  intros l u Hin. apply (Hok l u). now right.
Qed.

Lemma draw_panels_fails (E : Env) (axs : axes) (d : dict label value) (i : nat)
  (lbl : label) (v : value) (e : exn) :
  In (lbl, v) d -> wordcloud_generate E v = Raise e ->
  exists e', draw_panels E axs i (map fst d) (map snd d) = Raise e'.
Proof.
  revert i. induction d as [|[l u] d IH]; intros i Hin Hbad; [contradiction|].
  cbn [map fst snd draw_panels].
  destruct (axes_getitem axs i); [|now eexists]. cbn [bind].
  destruct (wordcloud_generate E u) eqn:Hu; [|now eexists]. cbn [bind].
  destruct Hin as [Heq|Hin].
  - inversion Heq; subst. congruence.
  - destruct (IH (S i) Hin Hbad) as [e' He']. rewrite He'. now eexists.
Qed.

Lemma second_viz_unfold (E : Env) (data : registry) :
  snd (second_viz E data)
  = (axs <- subplots_row (List.length (mapping_of "raw_text" data)) ;;
     draw_panels E axs O (map fst (mapping_of "raw_text" data))
                 (map snd (mapping_of "raw_text" data))).
Proof.
  unfold second_viz, second_viz_lists, mapping_of, items.
  destruct (getitem_default "raw_text" data) as [data1 text_content].
  cbn [snd]. now rewrite length_map.
Qed.

(** X14.  [second_viz] needs at least two registered texts: with none,
    [plt.subplots(1, 0)] raises [ValueError]; with one, [axs] is a single
    object and [axs[0]] raises [TypeError].  With two or more, when a cloud
    can be made of every one of them, it draws exactly the entries of
    [self.data["raw_text"]], in the order of that dictionary: one panel per
    registered label, each label once, titled by the label and made of the
    value registered for it; when no cloud can be made of one of them, it
    raises. *)
Theorem second_viz_panels (E : Env) (data : registry) :
  wf_registry data ->
  (mapping_of "raw_text" data = [] ->
   snd (second_viz E data) = Raise ValueError) /\
  (forall lv, mapping_of "raw_text" data = [lv] ->
   snd (second_viz E data) = Raise TypeError) /\
  ((2 <= List.length (mapping_of "raw_text" data))%nat ->
   (forall lbl v, In (lbl, v) (mapping_of "raw_text" data) ->
      wordcloud_generate E v = Ok tt) ->
   snd (second_viz E data) = Ok (mapping_of "raw_text" data)) /\
  ((2 <= List.length (mapping_of "raw_text" data))%nat ->
   forall lbl v e, In (lbl, v) (mapping_of "raw_text" data) ->
     wordcloud_generate E v = Raise e ->
     exists e', snd (second_viz E data) = Raise e') /\
  NoDup (keys (mapping_of "raw_text" data)) /\
  (forall lbl v, In (lbl, v) (mapping_of "raw_text" data) <->
                 stat data "raw_text" lbl = Some v).
Proof.
  intros Hwf. pose proof (wf_registry_inner data "raw_text" Hwf) as Hnd.
  change (snd (getitem_default "raw_text" data))
    with (mapping_of "raw_text" data) in Hnd.
  rewrite second_viz_unfold.
  split; [|split; [|split; [|split; [|split]]]].
  - intros ->. reflexivity.
  - intros lv ->. reflexivity.
  - intros Hlen Hok. rewrite (subplots_row_many _ Hlen). cbn [bind].
    apply draw_panels_ok; [lia|assumption].
  - intros Hlen lbl v e Hin Hbad. rewrite (subplots_row_many _ Hlen).
    cbn [bind]. now apply (draw_panels_fails E _ _ O lbl v e).
  - exact Hnd.
  - intros lbl v. rewrite stat_getitem_default.
    change (snd (getitem_default "raw_text" data))
      with (mapping_of "raw_text" data).
    split; [now apply In_get_Some | apply get_Some_In].
Qed.

Lemma second_viz_panels_witness :
  snd (second_viz example_env example_registry)
  = Ok [(Some "a.txt", VText "cat sat mat");
        (Some "b.txt", VText "dog ran park");
        (Some "c.txt",
         VText "red green red blue green red yellow pink grey")] /\
  snd (second_viz example_env init) = Raise ValueError /\
  snd (second_viz example_env
         (fst (load_text example_env init (Some "a.txt") None None)))
  = Raise TypeError.
Proof.
  split; [|split].
  - destruct (second_viz_panels example_env example_registry)
      as (_ & _ & H & _).
    + apply wf_registryb_sound. reflexivity.
    + apply H.
      * simpl. lia.
      * intros lbl v Hin. simpl in Hin.
        destruct Hin as [Hin|[Hin|[Hin|[]]]]; inversion Hin; reflexivity.
  - destruct (second_viz_panels example_env init) as (H & _).
    + apply wf_registryb_sound. reflexivity.
    + apply H. reflexivity.
  - destruct (second_viz_panels example_env
                (fst (load_text example_env init (Some "a.txt") None None)))
      as (_ & H & _).
    + apply wf_registryb_sound. reflexivity.
    + apply (H (Some "a.txt", VText "cat sat mat")). reflexivity.
Defined.

Lemma sentiment_bars_ok (sentiment : dict label value)
  (filenames : list label) :
  (forall l, In l filenames ->
     exists v, get l sentiment = Some v /\ has_bars v) ->
  exists pos neg,
    sentiment_bars sentiment filenames = Ok (pos, neg) /\
    Forall2 (fun l p => exists v, get l sentiment = Some v /\
                                  score_of v "pos" = Ok p) filenames pos /\
    Forall2 (fun l n => exists v, get l sentiment = Some v /\
                                  score_of v "neg" = Ok n) filenames neg.
Proof.
  induction filenames as [|f rest IH]; intros Hall.
  - exists [], []. repeat split; constructor.
  - destruct (Hall f (or_introl eq_refl)) as (v & Hget & p & n & Hp & Hn).
    destruct IH as (pos & neg & Hrest & Hpos & Hneg).
    { intros l Hl. apply Hall. now right. }
    exists (p :: pos), (n :: neg). split; [|split].
    + cbn [sentiment_bars]. rewrite Hget, Hp. cbn [bind]. rewrite Hn.
      cbn [bind]. rewrite Hrest. reflexivity.
    + constructor; [now exists v | assumption].
    + constructor; [now exists v | assumption].
Qed.

Lemma sentiment_bars_fails (sentiment : dict label value)
  (filenames : list label) (l : label) (v : value) :
  In l filenames -> get l sentiment = Some v -> ~ has_bars v ->
  exists e, sentiment_bars sentiment filenames = Raise e.
Proof.
  intros Hin Hget Hbad.
  induction filenames as [|f rest IH]; [contradiction|].
  cbn [sentiment_bars].
  destruct (get f sentiment) as [vf|] eqn:Hf; [|now eexists].
  destruct (score_of vf "pos") as [p|e] eqn:Hp; [|now eexists].
  destruct (score_of vf "neg") as [n|e] eqn:Hn; [|now eexists].
  cbn [bind].
  destruct Hin as [->|Hin].
  - exfalso. apply Hbad. rewrite Hf in Hget. inversion Hget; subst.
    now exists p, n.
  - destruct (IH Hin) as [e He]. rewrite He. now eexists.
Qed.

(** X13.  [third_viz] draws one pair of bars per entry of
    [self.data["sentiment"]], in the order of that dictionary: the tick
    labels are its keys, each registered label once, and the bars at each
    place are the ["pos"] and ["neg"] scores of the label at that place,
    when every registered value has both; as soon as one value lacks a
    score or is no mapping, it raises and draws nothing. *)
Theorem third_viz_bars (data : registry) :
  wf_registry data ->
  ((forall lbl v, stat data "sentiment" lbl = Some v -> has_bars v) ->
   exists pos neg,
     snd (third_viz data)
     = Ok (keys (mapping_of "sentiment" data), (pos, neg)) /\
     Forall2 (fun lbl p => exists v, stat data "sentiment" lbl = Some v /\
                                     score_of v "pos" = Ok p)
             (keys (mapping_of "sentiment" data)) pos /\
     Forall2 (fun lbl n => exists v, stat data "sentiment" lbl = Some v /\
                                     score_of v "neg" = Ok n)
             (keys (mapping_of "sentiment" data)) neg) /\
  (forall lbl v, stat data "sentiment" lbl = Some v -> ~ has_bars v ->
   exists e, snd (third_viz data) = Raise e) /\
  NoDup (keys (mapping_of "sentiment" data)) /\
  (forall lbl v, In (lbl, v) (mapping_of "sentiment" data) <->
                 stat data "sentiment" lbl = Some v).
Proof.
  intros Hwf. pose proof (wf_registry_inner data "sentiment" Hwf) as Hnd.
  unfold third_viz, mapping_of.
  assert (Hstat : forall lbl,
            stat data "sentiment" lbl
            = get lbl (snd (getitem_default "sentiment" data)))
    by (intros; apply stat_getitem_default).
  destruct (getitem_default "sentiment" data) as [data1 sentiment].
  cbn [fst snd] in *. split; [|split; [|split]].
  - intros Hall.
    destruct (sentiment_bars_ok sentiment (keys sentiment))
      as (pos & neg & Hrun & Hpos & Hneg).
    { intros l Hl. destruct (get l sentiment) as [v|] eqn:Hget;
        [|apply get_None_iff in Hget; contradiction].
      exists v. split; [reflexivity|]. apply (Hall l). now rewrite Hstat. }
    exists pos, neg. rewrite Hrun. cbn [bind].
    split; [reflexivity|]. split.
    + revert Hpos. apply Forall2_impl.
      intros l p (v & Hv & Hp). exists v. now rewrite Hstat.
    + revert Hneg. apply Forall2_impl.
      intros l n (v & Hv & Hn). exists v. now rewrite Hstat.
  - intros lbl v Hv Hbad. rewrite Hstat in Hv.
    destruct (sentiment_bars_fails sentiment (keys sentiment) lbl v)
      as [e He]; try assumption.
    + destruct (in_dec (fun x y => reflect_dec _ _ (option_eqb_spec x y)) lbl
                  (keys sentiment)) as [Hin|Hout]; [assumption|].
      apply get_None_iff in Hout. unfold label in *. congruence.
    + exists e. now rewrite He.
  - exact Hnd.
  - intros lbl v. rewrite Hstat.
    split; [now apply In_get_Some | apply get_Some_In].
Qed.

Lemma third_viz_bars_witness :
  exists pos neg,
    snd (third_viz example_registry)
    = Ok ([Some "a.txt"; Some "b.txt"; Some "c.txt"], (pos, neg)) /\
    Forall2 (fun lbl p =>
               exists v, stat example_registry "sentiment" lbl = Some v /\
                         score_of v "pos" = Ok p)
            [Some "a.txt"; Some "b.txt"; Some "c.txt"] pos.
Proof.
  destruct (third_viz_bars example_registry) as [Hok _].
  - apply wf_registryb_sound. reflexivity.
  - destruct Hok as (pos & neg & H1 & H2 & _).
    + intros lbl v. unfold stat. simpl.
      destruct lbl as [l|]; [|discriminate]. cbn [option_eqb].
      destruct (String.eqb l "a.txt");
        [intros H; inversion H; subst; now exists 0%Q, 0%Q|].
      destruct (String.eqb l "b.txt");
        [intros H; inversion H; subst; now exists 0%Q, 0%Q|].
      destruct (String.eqb l "c.txt");
        [intros H; inversion H; subst; now exists 0%Q, 0%Q|].
      discriminate.
    + exists pos, neg. split; [exact H1 | exact H2].
Defined.

(** ** Reading a statistic that nobody registered *)

(** X18.  On a registry without the statistics ["wordcount"], ["raw_text"]
    and ["sentiment"], as a new object is, reading the missing statistic is
    no error: the filter succeeds, and the filter and the three
    visualizations each add the statistic they read, with no label, at the
    end of the registry; the rows, the lists of titles and texts and the
    bars they build are empty, and [second_viz] then raises [ValueError]
    when it asks for a figure without columns. *)
Theorem readers_create_missing_statistic (E : Env) (data : registry)
  (word_list : option (list string)) (k : Z) :
  check_get_wordcount (exception E) word_list k = Ok tt ->
  get "wordcount" data = None ->
  get "raw_text" data = None ->
  get "sentiment" data = None ->
  get_wordcount E data word_list k = (data ++ [("wordcount", [])], Ok tt) /\
  wordcount_sankey E data word_list k
  = (data ++ [("wordcount", [])], Ok []) /\
  second_viz_lists data = (data ++ [("raw_text", [])], ([], [])) /\
  second_viz E data = (data ++ [("raw_text", [])], Raise ValueError) /\
  third_viz data = (data ++ [("sentiment", [])], Ok ([], ([], []))).
Proof.
  intros Hcheck Hwc Htext Hsent.
  assert (Hrun : get_wordcount E data word_list k
                 = (data ++ [("wordcount", [])], Ok tt)).
  { unfold get_wordcount, getitem_default. rewrite Hcheck, Hwc.
    cbn [keys map filter_loop]. rewrite set_set. now rewrite set_absent. }
  assert (Hlists : second_viz_lists data
                   = (data ++ [("raw_text", [])], ([], []))).
  { unfold second_viz_lists, getitem_default. rewrite Htext.
    now rewrite set_absent. }
  split; [exact Hrun|]. split; [|split; [|split]].
  - unfold wordcount_sankey. rewrite Hrun. unfold getitem_default.
    rewrite get_app_absent by now apply get_None_iff.
    reflexivity.
  - exact Hlists.
  - unfold second_viz. now rewrite Hlists.
  - unfold third_viz, getitem_default. rewrite Hsent.
    now rewrite set_absent.
Qed.

Lemma readers_create_missing_statistic_witness :
  get_wordcount example_env init None 5 = ([("wordcount", [])], Ok tt) /\
  wordcount_sankey example_env init None 5 = ([("wordcount", [])], Ok []) /\
  second_viz_lists init = ([("raw_text", [])], ([], [])) /\
  second_viz example_env init = ([("raw_text", [])], Raise ValueError) /\
  third_viz init = ([("sentiment", [])], Ok ([], ([], []))).
Proof.
  apply (readers_create_missing_statistic example_env init None 5);
    reflexivity.
Defined.

(** ** What [preprocess] does not look at *)

Lemma lower_sub_lower_ascii_char (c : ascii) :
  Str.lower_char
    (if Str.is_alpha (lower_ascii_char c) then lower_ascii_char c
     else " "%char)
  = Str.lower_char (if Str.is_alpha c then c else " "%char).
Proof. all_chars c. Qed.

Lemma lower_sub_sub_char (c : ascii) :
  Str.lower_char
    (if Str.is_alpha (if Str.is_alpha c then c else " "%char)
     then (if Str.is_alpha c then c else " "%char) else " "%char)
  = Str.lower_char (if Str.is_alpha c then c else " "%char).
Proof. all_chars c. Qed.

(** X16.  [preprocess] does not see the case of the letters [A-Z] nor which
    characters stand between the words: a text, the text with every capital
    [A-Z] replaced by its small letter, and the text with every non-letter
    replaced by a space are cleaned to the same string. *)
Theorem preprocess_ignores_case_and_separators (E : Env) (t : string) :
  preprocess E (lower_ascii t) = preprocess E t /\
  preprocess E (Str.sub_non_alpha t) = preprocess E t.
Proof.
  unfold preprocess. split.
  - replace (Str.lower (Str.sub_non_alpha (lower_ascii t)))
      with (Str.lower (Str.sub_non_alpha t)); [reflexivity|].
    unfold Str.lower, Str.sub_non_alpha, lower_ascii.
    induction t as [|c t IH]; simpl; [reflexivity|].
    now rewrite IH, lower_sub_lower_ascii_char.
  - replace (Str.lower (Str.sub_non_alpha (Str.sub_non_alpha t)))
      with (Str.lower (Str.sub_non_alpha t)); [reflexivity|].
    unfold Str.lower, Str.sub_non_alpha.
    induction t as [|c t IH]; simpl; [reflexivity|].
    now rewrite IH, lower_sub_sub_char.
Qed.

(** X17.  A text whose words are all stop-words, or that has no letter at
    all, is cleaned to the empty string, and its word-count mapping is
    empty. *)
Theorem preprocess_only_stopwords (E : Env) (t : string) :
  forallb (fun w => Str.mem w (stopwords E)) (alpha_words t) = true ->
  preprocess E t = "" /\ count (preprocess E t) = [].
Proof.
  intros Hall.
  assert (Hpre : preprocess E t = "").
  { unfold preprocess. rewrite split_clean_alpha_words.
    replace (filter (fun word => negb (Str.mem word (stopwords E)))
                    (alpha_words t)) with (@nil string); [reflexivity|].
    induction (alpha_words t) as [|w ws IH]; [reflexivity|].
    simpl in Hall |- *. apply andb_true_iff in Hall. destruct Hall as [Hw Hws].
    rewrite Hw. cbn [negb]. now apply IH. }
  split; [exact Hpre|]. now rewrite Hpre.
Qed.

Lemma preprocess_only_stopwords_witness :
  preprocess example_env "The 1 on -- THE (of a)" = "" /\
  count (preprocess example_env "The 1 on -- THE (of a)") = [].
Proof. apply preprocess_only_stopwords. reflexivity. Defined.


(** ** The order of the labels *)

Lemma mapping_of_set (s k : string) (inner : dict label value)
  (data : registry) :
  mapping_of s (set k inner data)
  = if String.eqb s k then inner else mapping_of s data.
Proof.
  unfold mapping_of, getitem_default.
  destruct (String.eqb_spec s k) as [->|Hne].
  - now rewrite get_set_eq.
  - rewrite get_set_ne by congruence. now destruct (get s data).
Qed.

Lemma mapping_of_save_item (lbl : label) (data : registry)
  (kv : string * value) (s : string) :
  mapping_of s (save_item lbl data kv)
  = if String.eqb s (fst kv)
    then set lbl (snd kv) (mapping_of (fst kv) data)
    else mapping_of s data.
Proof.
  destruct kv as [k v]. unfold save_item. cbn [fst snd].
  pose proof (set_getitem_default k (set lbl v (snd (getitem_default k data)))
                data) as Hset.
  destruct (getitem_default k data) as [data1 inner] eqn:Hd.
  cbn [fst snd] in Hset. rewrite Hset, mapping_of_set.
  unfold mapping_of. now rewrite Hd.
Qed.

Lemma mapping_of_save_results (lbl : label) (results : dict string value)
  (data : registry) (s : string) :
  NoDup (keys results) ->
  mapping_of s (_save_results data lbl results)
  = match get s results with
    | Some v => set lbl v (mapping_of s data)
    | None => mapping_of s data
    end.
Proof.
  unfold _save_results, items. revert data.
  induction results as [|[k v] results IH]; intros data Hnd; [reflexivity|].
  inversion Hnd as [|? ? Hout Hnd']; subst.
  cbn [fold_left get]. rewrite (IH _ Hnd'), mapping_of_save_item.
  cbn [fst snd].
  change (@key_eqb string string_hashable s k) with (String.eqb s k).
  destruct (String.eqb_spec s k) as [->|Hne]; [|reflexivity].
  apply get_None_iff in Hout. now rewrite Hout.
Qed.

(** X19.  The labels under a statistic stand in the order of their first
    registration: a successful [load_text] puts a label that the statistic
    does not have yet behind the labels it has, leaves a label that it has
    in its place, and does not touch the mapping of a statistic that the
    parser's result does not have. *)
Theorem load_text_label_order (E : Env) (data : registry)
  (filename lbl : option string) (parser : option parser_arg)
  (results : dict string value) (s : string) :
  check_load_text (exception E) filename lbl parser = Ok tt ->
  parse E filename parser = Ok results ->
  NoDup (keys results) ->
  keys (mapping_of s (fst (load_text E data filename lbl parser)))
  = match get s results, stat data s (effective_label filename lbl) with
    | Some _, None =>
        keys (mapping_of s data) ++ [effective_label filename lbl]
    | _, _ => keys (mapping_of s data)
    end.
Proof.
  intros Hcheck Hparse Hnd.
  rewrite (load_text_unfold E data filename lbl parser results Hcheck Hparse).
  cbn [fst]. rewrite mapping_of_save_results by assumption.
  rewrite stat_getitem_default.
  change (snd (getitem_default s data)) with (mapping_of s data).
  destruct (get s results) as [v|].
  - rewrite keys_set.
    now destruct (get (effective_label filename lbl) (mapping_of s data)).
  - now destruct (get (effective_label filename lbl) (mapping_of s data)).
Qed.

Lemma load_text_label_order_witness :
  keys (mapping_of "raw_text"
          (fst (load_text example_env example_registry (Some "one.txt")
                  (Some "doc") (Some first_parser))))
  = [Some "a.txt"; Some "b.txt"; Some "c.txt"] /\
  keys (mapping_of "topic"
          (fst (load_text example_env example_registry (Some "one.txt")
                  (Some "doc") (Some first_parser))))
  = [Some "doc"] /\
  keys (mapping_of "wordcount"
          (fst (load_text example_env example_registry (Some "one.txt")
                  (Some "doc") (Some first_parser))))
  = [Some "a.txt"; Some "b.txt"; Some "c.txt"; Some "doc"].
Proof.
  assert (Hnd : NoDup (keys first_results))
    by (apply distinctb_sound; reflexivity).
  split; [|split].
  - apply (load_text_label_order example_env example_registry
             (Some "one.txt") (Some "doc") (Some first_parser) first_results
             "raw_text" eq_refl eq_refl Hnd).
  - apply (load_text_label_order example_env example_registry
             (Some "one.txt") (Some "doc") (Some first_parser) first_results
             "topic" eq_refl eq_refl Hnd).
  - apply (load_text_label_order example_env example_registry
             (Some "one.txt") (Some "doc") (Some first_parser) first_results
             "wordcount" eq_refl eq_refl Hnd).
Defined.
